(** * img2pdf-tool-for-jmcomic: a shallow embedding of [tool.py]

    The development follows [tool.py] function by function.  The Python
    built-ins the program relies on ([os.path.splitext], [str.lower],
    [int], [list.sort], [os.path.join], [os.path.basename]) are embedded in
    module [Py]; the file system and the external libraries (PIL, img2pdf,
    PyPDF2, zipfile) are a store of files, threaded through the
    functions, plus a handful of oracles collected in the record [Env].
    Every function also returns the trace of what it prints and of the
    library calls it makes.

    File names are ASCII strings: [str.lower] and [int] are modelled on the
    ASCII range (a byte above 127 is neither a digit nor white space). *)

From Stdlib Require Import ZArith Ascii String Lia.
From stdpp Require Import gmap strings list sorting pretty.

(* ------------------------------------------------------------------ *)
(** * Python built-ins *)
(* ------------------------------------------------------------------ *)

Module Py.

Local Open Scope Z_scope.

(** ** Characters *)

Definition code (c : ascii) : Z := Z.of_nat (nat_of_ascii c).

(** [str.lower] on one ASCII character. *)
Definition lower_char (c : ascii) : ascii :=
  if (65 <=? code c) && (code c <=? 90)
  then ascii_of_nat (nat_of_ascii c + 32) else c.

(** [str.lower()]. *)
Fixpoint lower (s : string) : string :=
  match s with
  | EmptyString => EmptyString
  | String c r => String (lower_char c) (lower r)
  end.

(** White space as [int] sees it in an ASCII string: TAB, LF, VT, FF, CR,
    the four separators FS, GS, RS, US, and the space. *)
Definition is_space (c : ascii) : bool :=
  ((9 <=? code c) && (code c <=? 13)) || ((28 <=? code c) && (code c <=? 32)).

Definition is_digit (c : ascii) : bool :=
  (48 <=? code c) && (code c <=? 57).

Definition digit_value (c : ascii) : Z := code c - 48.

(** ** [str.rfind] for a one-character needle; [-1] when absent. *)
Fixpoint rfind (c : ascii) (s : string) : Z :=
  match s with
  | EmptyString => -1
  | String a r =>
      let i := rfind c r in
      if 0 <=? i then i + 1
      else if Ascii.eqb a c then 0 else -1
  end.

(** ** Slices [p[:i]] and [p[i:]] for [0 <= i]. *)
Definition slice_to (i : Z) (p : string) : string :=
  substring 0 (Z.to_nat i) p.

Definition slice_from (i : Z) (p : string) : string :=
  substring (Z.to_nat i) (String.length p - Z.to_nat i) p.

(** ** [os.path.splitext] (posixpath: separator [/], extension separator [.])

    The extension starts at the last dot of the last path component,
    unless that component has nothing but dots before it. *)
Definition splitext (p : string) : string * string :=
  let sepIndex := rfind "/" p in
  let dotIndex := rfind "." p in
  if sepIndex <? dotIndex then
    let filenameIndex := sepIndex + 1 in
    let leading :=
      substring (Z.to_nat filenameIndex) (Z.to_nat (dotIndex - filenameIndex)) p in
    if existsb (fun ch => negb (Ascii.eqb ch ".")) (list_ascii_of_string leading)
    then (slice_to dotIndex p, slice_from dotIndex p)
    else (p, EmptyString)
  else (p, EmptyString).

(** ** [os.path.basename] and [os.path.join] (posixpath) *)
Definition basename (p : string) : string :=
  slice_from (rfind "/" p + 1) p.

Definition endswith_sep (p : string) : bool :=
  match String.length p with
  | O => false
  | S n => match String.get n p with
           | Some c => Ascii.eqb c "/"
           | None => false
           end
  end.

Definition join (a b : string) : string :=
  match b with
  | String "/" _ => b
  | _ =>
      match a with
      | EmptyString => b
      | _ => if endswith_sep a then a +:+ b else a +:+ "/" +:+ b
      end
  end.

(** ** [int(s)] for a string argument, base 10

    Leading and trailing white space is dropped, one sign is allowed, the
    digits may be grouped by single underscores (not leading, not
    trailing, not doubled), and at least one digit is required.  [None]
    stands for [ValueError]. *)

Fixpoint skip_spaces (s : string) : string :=
  match s with
  | EmptyString => EmptyString
  | String c r => if is_space c then skip_spaces r else s
  end.

(** Scans the digit run; returns the value, the number of digits and the
    unread rest.  [prev_us] tells whether the previous character was an
    underscore. *)
Fixpoint scan_digits (prev_us : bool) (acc : Z) (digits : nat) (s : string)
  : option (Z * nat * string) :=
  match s with
  | EmptyString => if prev_us then None else Some (acc, digits, EmptyString)
  | String c r =>
      if is_digit c then scan_digits false (10 * acc + digit_value c) (S digits) r
      else if Ascii.eqb c "_" then
        if prev_us then None else scan_digits true acc digits r
      else if prev_us then None else Some (acc, digits, s)
  end.

(** Default of [sys.get_int_max_str_digits()]. *)
Definition max_str_digits : nat := 4300.

Definition int (s : string) : option Z :=
  let s1 := skip_spaces s in
  let '(sign, s2) :=
    match s1 with
    | String "+" r => (1, r)
    | String "-" r => (-1, r)
    | _ => (1, s1)
    end in
  match s2 with
  | String "_" _ => None
  | _ =>
      match scan_digits false 0 0 s2 with
      | None => None
      | Some (v, digits, rest) =>
          if (digits =? 0)%nat then None
          else if (max_str_digits <? digits)%nat then None
          else match skip_spaces rest with
               | EmptyString => Some (sign * v)
               | _ => None
               end
      end
  end.

(** ** [list.sort]

    Python's sort is stable, so its result is the one of any stable
    sort; insertion from the right is the simplest of them. *)
Section Sort.
Context {A : Type} (leb : A -> A -> bool).

Fixpoint insert_sorted (x : A) (l : list A) : list A :=
  match l with
  | [] => [x]
  | y :: r => if leb x y then x :: l else y :: insert_sorted x r
  end.

Definition stable_sort (l : list A) : list A :=
  foldr insert_sorted [] l.
End Sort.

(** [l.sort()] on a list of strings: code-point order. *)
Definition list_sort (l : list string) : list string :=
  stable_sort String.leb l.

(** [l.sort(key=f)] with integer keys.  All keys are computed before any
    element moves; if one key raises, the list is left as it was and the
    exception propagates ([None]). *)
Definition list_sort_key {A : Type} (key : A -> option Z) (l : list A)
  : option (list A) :=
  match mapM key l with
  | None => None
  | Some keys =>
      Some (map snd (stable_sort (fun a b => fst a <=? fst b) (zip keys l)))
  end.

End Py.

(* ------------------------------------------------------------------ *)
(** * The world: files, directory listings, external libraries *)
(* ------------------------------------------------------------------ *)

(** What a path of the file store holds.  A PDF is the list of its pages,
    each page named by the path of the image it was made from. *)
Inductive file :=
| Blank                                  (* a zero-byte file *)
| ImageData (decodable : bool)           (* an image; can PIL open and convert it? *)
| PdfDoc (pages : list string)
| ZipArchive (names : list string)       (* entry names, in order *)
| OtherData.                             (* any other non-empty content *)

(** [os.path.exists(p)] and [os.path.getsize(p) > 0]. *)
Definition path_exists (fs : gmap string file) (p : string) : bool :=
  match fs !! p with Some _ => true | None => false end.

Definition size_positive (fs : gmap string file) (p : string) : bool :=
  match fs !! p with
  | Some Blank | None => false
  | Some _ => true
  end.

Inductive entry_kind := RegularFile | Directory | OtherEntry.

Record dir_entry := { entry_name : string; entry_kind_of : entry_kind }.

Definition is_file (e : dir_entry) : bool :=
  match entry_kind_of e with RegularFile => true | _ => false end.

Definition is_dir (e : dir_entry) : bool :=
  match entry_kind_of e with Directory => true | _ => false end.

(** Outcome of [os.scandir]. *)
Inductive scan_result :=
| ScanOk (entries : list dir_entry)
| ScanNotFound                           (* FileNotFoundError *)
| ScanError.                             (* any other OSError *)

(** The environment of one run.  Directory listings are an oracle of their
    own: the program only ever writes [.pdf] and [.zip] files and lists a
    directory before it writes, so the listings it sees do not depend on
    its own writes. *)
Record Env := {
  IMG2PDF_AVAILABLE : bool;              (* [import img2pdf] succeeded *)
  PYPDF2_AVAILABLE : bool;               (* [from PyPDF2 import PdfMerger] succeeds *)
  scandir : string -> scan_result;
  makedirs_ok : string -> bool;          (* the parent of the path can be created *)
  writable : string -> bool;             (* the path can be opened for writing *)
  img2pdf_convert : gmap string file -> list string -> option (list string);
                                         (* pages, or [None] when img2pdf raises *)
  mkdtemp : gmap string file -> option string;
                                         (* the directory TemporaryDirectory() makes *)
  pil_save_ok : string -> list string -> bool
                                         (* does Image.save(..., save_all=True) succeed *)
}.

(** What the program prints and which library calls it makes, in order. *)
Inductive event :=
| EvDirMissing (image_dir : string)
| EvNoImages (image_dir : string)
| EvFastStrategy (image_dir : string)
| EvFastDone (out : string) (n : nat)
| EvFastFailed (image_dir : string)
| EvBatchStrategy (image_dir : string)
| EvBatchPlan (total_images batch_count : nat)
| EvBatchBegin (batch_no : nat)
| EvImageOpened (img_path : string)
| EvImageSkipped (img_path : string)
| EvBatchEmpty (batch_no : nat)
| EvBatchSaved (temp_pdf_path : string) (pages : list string)
| EvBatchSaveFailed (batch_no : nat)
| EvImageClosed (img_path : string)
| EvCopied (src dst : string)
| EvMerged (out : string) (n : nat)
| EvMergeFailed (out : string)
| EvNoTempPdf (image_dir : string)
| EvUnhandled (image_dir : string)
| EvDone (image_dir : string)
| EvMergeCall (pdf_paths : list string) (output_path : string)
| EvMergerAppend (pdf : string)
| EvMergerSkip (pdf : string)
| EvMergerNoInput (output_path : string)
| EvMergerWrite (output_path : string)
| EvMergerUnavailable
| EvMergerError (output_path : string)
| EvAlbum (album_dir : string)
| EvChapter (chapter : string)
| EvChapterFailed (chapter : string)
| EvAlbumError
| EvZipNothing
| EvZipAdd (pdf arcname : string)
| EvZipSkip (pdf : string)
| EvZipDone (zip_path : string) (n : nat)
| EvZipError.

(** Number of images open after a trace: opened and not yet closed. *)
Fixpoint open_count_from (n : Z) (tr : list event) : Z :=
  match tr with
  | [] => n
  | EvImageOpened _ :: r => open_count_from (n + 1)%Z r
  | EvImageClosed _ :: r => open_count_from (n - 1)%Z r
  | _ :: r => open_count_from n r
  end.

Definition open_count (tr : list event) : Z := open_count_from 0%Z tr.

Definition is_merger_event (e : event) : bool :=
  match e with
  | EvMergeCall _ _ | EvMergerAppend _ | EvMergerSkip _ | EvMergerNoInput _
  | EvMergerWrite _ | EvMergerUnavailable | EvMergerError _ => true
  | _ => false
  end.

(* ------------------------------------------------------------------ *)
(** * tool.py *)
(* ------------------------------------------------------------------ *)

Definition BATCH_SIZE : nat := 10.

Definition str_in (s : string) (l : list string) : bool :=
  existsb (String.eqb s) l.

Definition allowed_extensions : list string :=
  [".jpg"; ".jpeg"; ".png"; ".webp"; ".bmp"]%string.

Definition img2pdf_extensions : list string :=
  [".jpg"; ".jpeg"; ".png"]%string.

(** [os.path.splitext(filename)[1].lower()] *)
Definition ext_lower (filename : string) : string :=
  Py.lower (snd (Py.splitext filename)).

(** [get_image_formats]: the set of extensions and the flag that some
    extension is outside what img2pdf handles. *)
Definition get_image_formats (image_dir : string) (image_files : list string)
  : gset string * bool :=
  fold_left
    (fun '(formats, unsupported_by_img2pdf) filename =>
       let ext := ext_lower filename in
       ({[ ext ]} ∪ formats,
        if negb (str_in ext img2pdf_extensions) then true
        else unsupported_by_img2pdf))
    image_files (∅, false).

(** Lines 42-47: the names of the regular files with an allowed extension. *)
Definition list_image_files (entries : list dir_entry) : list string :=
  map entry_name
    (List.filter (fun e => is_file e && str_in (ext_lower (entry_name e)) allowed_extensions)
       entries).

(** Lines 52-55: numeric sort on the base names; on [ValueError] the plain
    sort of the untouched list. *)
Definition sort_image_files (image_files : list string) : list string :=
  match Py.list_sort_key (fun x => Py.int (fst (Py.splitext x))) image_files with
  | Some sorted => sorted
  | None => Py.list_sort image_files
  end.

(** [l[start:stop]] for [0 <= start], [0 <= stop]. *)
Definition slice {A : Type} (start stop : nat) (l : list A) : list A :=
  take (stop - start) (drop start l).

Definition batch_count_of (bs total_images : nat) : nat :=
  (total_images + bs - 1) / bs.

(** Lines 91-93. *)
Definition batch_files_of (bs : nat) (image_files : list string) (batch_index : nat)
  : list string :=
  let total_images := length image_files in
  let start_idx := batch_index * bs in
  let end_idx := Nat.min (start_idx + bs) total_images in
  slice start_idx end_idx image_files.

(** The batches the loop of line 90 walks through. *)
Definition batches_of (bs : nat) (image_files : list string) : list (list string) :=
  map (batch_files_of bs image_files) (seq 0 (batch_count_of bs (length image_files))).

Definition temp_pdf_path (temp_dir : string) (batch_index : nat) : string :=
  Py.join temp_dir ("temp_batch_" +:+ pretty (batch_index + 1) +:+ ".pdf").

Section Tool.
Variable env : Env.

(** Lines 100-103: [Image.open] followed by the conversion to RGB.  The
    opened image is named by the path it was read from. *)
Definition image_open (fs : gmap string file) (img_path : string) : option string :=
  match fs !! img_path with
  | Some (ImageData true) => Some img_path
  | _ => None
  end.

(** Lines 96-106: the images of one batch that could be opened. *)
Fixpoint open_batch (fs : gmap string file) (image_dir : string)
    (batch_files_pil : list string) : list string * list event :=
  match batch_files_pil with
  | [] => ([], [])
  | filename :: rest =>
      let img_path := Py.join image_dir filename in
      let '(batch_images_pil, tr) := open_batch fs image_dir rest in
      match image_open fs img_path with
      | Some img => (img :: batch_images_pil, EvImageOpened img :: tr)
      | None => (batch_images_pil, EvImageSkipped img_path :: tr)
      end
  end.

(** Lines 91-126: one round of the batch loop. *)
Definition process_batch (temp_dir image_dir : string) (image_files : list string)
    (batch_index : nat) (temp_pdfs : list string) (fs : gmap string file)
  : list string * gmap string file * list event :=
  let batch_files_pil := batch_files_of BATCH_SIZE image_files batch_index in
  let '(batch_images_pil, tr_open) := open_batch fs image_dir batch_files_pil in
  match batch_images_pil with
  | [] =>
      (temp_pdfs, fs,
       EvBatchBegin (batch_index + 1) :: tr_open ++ [EvBatchEmpty (batch_index + 1)])
  | _ =>
      let path := temp_pdf_path temp_dir batch_index in
      let closes := map EvImageClosed batch_images_pil in
      if pil_save_ok env path batch_images_pil then
        (temp_pdfs ++ [path], <[path := PdfDoc batch_images_pil]> fs,
         EvBatchBegin (batch_index + 1) :: tr_open
           ++ EvBatchSaved path batch_images_pil :: closes)
      else
        (temp_pdfs, fs,
         EvBatchBegin (batch_index + 1) :: tr_open
           ++ EvBatchSaveFailed (batch_index + 1) :: closes)
  end.

(** Line 90: the loop over the batch indices. *)
Fixpoint run_batches (temp_dir image_dir : string) (image_files : list string)
    (indices : list nat) (temp_pdfs : list string) (fs : gmap string file)
  : list string * gmap string file * list event :=
  match indices with
  | [] => (temp_pdfs, fs, [])
  | batch_index :: rest =>
      let '(temp_pdfs1, fs1, tr1) :=
        process_batch temp_dir image_dir image_files batch_index temp_pdfs fs in
      let '(temp_pdfs2, fs2, tr2) :=
        run_batches temp_dir image_dir image_files rest temp_pdfs1 fs1 in
      (temp_pdfs2, fs2, tr1 ++ tr2)
  end.

(** The loop of lines 160-164; [None] when [merger.append] raises, which
    it does on a non-empty file that is not a PDF. *)
Fixpoint merger_append_all (fs : gmap string file) (pdf_paths : list string)
    (inputs : list (list string)) : option (list (list string)) * list event :=
  match pdf_paths with
  | [] => (Some inputs, [])
  | pdf :: rest =>
      if path_exists fs pdf && size_positive fs pdf then
        match fs !! pdf with
        | Some (PdfDoc pages) =>
            let '(r, tr) := merger_append_all fs rest (inputs ++ [pages]) in
            (r, EvMergerAppend pdf :: tr)
        | _ => (None, [EvMergerAppend pdf])
        end
      else
        let '(r, tr) := merger_append_all fs rest inputs in
        (r, EvMergerSkip pdf :: tr)
  end.

(** [merge_pdfs] *)
Definition merge_pdfs (pdf_paths : list string) (output_path : string)
    (fs : gmap string file) : bool * gmap string file * list event :=
  if negb (PYPDF2_AVAILABLE env) then
    (false, fs, [EvMergeCall pdf_paths output_path; EvMergerUnavailable])
  else
    match merger_append_all fs pdf_paths [] with
    | (None, tr) =>
        (false, fs, EvMergeCall pdf_paths output_path :: tr ++ [EvMergerError output_path])
    | (Some [], tr) =>
        (false, fs, EvMergeCall pdf_paths output_path :: tr ++ [EvMergerNoInput output_path])
    | (Some inputs, tr) =>
        if writable env output_path then
          (true, <[output_path := PdfDoc (concat inputs)]> fs,
           EvMergeCall pdf_paths output_path :: tr ++ [EvMergerWrite output_path])
        else
          (false, fs,
           EvMergeCall pdf_paths output_path :: tr
             ++ [EvMergerWrite output_path; EvMergerError output_path])
    end.

(** [shutil.copy2]; [None] when it raises. *)
Definition copy2 (src dst : string) (fs : gmap string file)
  : option (gmap string file) :=
  match fs !! src with
  | Some content =>
      if String.eqb src dst then None
      else if writable env dst then Some (<[dst := content]> fs)
      else None
  | None => None
  end.

(** How the body of the [with] block of line 85 is left. *)
Inductive block_exit :=
| ReturnNone                           (* lines 137 and 140 *)
| Raised                               (* an exception on its way to line 142 *)
| FallThrough.                         (* on to lines 148-149 *)

(** Lines 128-140. *)
Definition finish_batches (image_dir output_pdf_path : string)
    (temp_pdfs : list string) (fs : gmap string file)
  : block_exit * gmap string file * list event :=
  match temp_pdfs with
  | [] => (ReturnNone, fs, [EvNoTempPdf image_dir])
  | [single] =>
      match copy2 single output_pdf_path fs with
      | Some fs' => (FallThrough, fs', [EvCopied single output_pdf_path])
      | None => (Raised, fs, [])
      end
  | _ =>
      let '(ok, fs', tr) := merge_pdfs temp_pdfs output_pdf_path fs in
      if ok then (FallThrough, fs', tr ++ [EvMerged output_pdf_path (length temp_pdfs)])
      else (ReturnNone, fs', tr ++ [EvMergeFailed output_pdf_path])
  end.

(** Leaving the [with] block removes the temporary directory with the
    batch files written into it. *)
Definition cleanup_temp (temp_dir : string) (batch_count : nat)
    (fs : gmap string file) : gmap string file :=
  foldr (fun batch_index acc => delete (temp_pdf_path temp_dir batch_index) acc)
    fs (seq 0 batch_count).

(** Lines 82-140 and 148-149: the PIL batch strategy. *)
Definition pil_strategy (image_dir output_pdf_path : string)
    (image_files : list string) (fs : gmap string file)
  : option string * gmap string file * list event :=
  match mkdtemp env fs with
  | None => (None, fs, [EvBatchStrategy image_dir; EvUnhandled image_dir])
  | Some temp_dir =>
      let total_images := length image_files in
      let batch_count := batch_count_of BATCH_SIZE total_images in
      let '(temp_pdfs, fs1, tr1) :=
        run_batches temp_dir image_dir image_files (seq 0 batch_count) [] fs in
      let '(how, fs2, tr2) :=
        finish_batches image_dir output_pdf_path temp_pdfs fs1 in
      let fs3 := cleanup_temp temp_dir batch_count fs2 in
      let head := [EvBatchStrategy image_dir; EvBatchPlan total_images batch_count] in
      match how with
      | ReturnNone => (None, fs3, head ++ tr1 ++ tr2)
      | Raised => (None, fs3, head ++ tr1 ++ tr2 ++ [EvUnhandled image_dir])
      | FallThrough => (Some output_pdf_path, fs3, head ++ tr1 ++ tr2 ++ [EvDone image_dir])
      end
  end.

(** Lines 70-79: the img2pdf strategy.  The output file is opened (and so
    emptied) before the encoder runs. *)
Definition img2pdf_strategy (image_dir output_pdf_path : string)
    (image_files : list string) (fs : gmap string file)
  : bool * gmap string file :=
  let img_paths := map (Py.join image_dir) image_files in
  if writable env output_pdf_path then
    let fs1 := <[output_pdf_path := Blank]> fs in
    match img2pdf_convert env fs1 img_paths with
    | Some pages => (true, <[output_pdf_path := PdfDoc pages]> fs)
    | None => (false, fs1)
    end
  else (false, fs).

(** Line 66. *)
Definition use_img2pdf (image_dir : string) (image_files : list string) : bool :=
  let '(_, contains_unsupported_for_img2pdf) :=
    get_image_formats image_dir image_files in
  IMG2PDF_AVAILABLE env && negb contains_unsupported_for_img2pdf.

(** [images_to_pdf] *)
Definition images_to_pdf (image_dir output_pdf_path : string)
    (fs : gmap string file) : option string * gmap string file * list event :=
  match scandir env image_dir with
  | ScanNotFound => (None, fs, [EvDirMissing image_dir])
  | ScanError => (None, fs, [EvUnhandled image_dir])
  | ScanOk entries =>
      let image_files := sort_image_files (list_image_files entries) in
      match image_files with
      | [] => (None, fs, [EvNoImages image_dir])
      | _ =>
          if negb (makedirs_ok env output_pdf_path) then
            (None, fs, [EvUnhandled image_dir])
          else if use_img2pdf image_dir image_files then
            match img2pdf_strategy image_dir output_pdf_path image_files fs with
            | (true, fs1) =>
                (Some output_pdf_path, fs1,
                 [EvFastStrategy image_dir;
                  EvFastDone output_pdf_path (length image_files)])
            | (false, fs1) =>
                let '(r, fs2, tr) :=
                  pil_strategy image_dir output_pdf_path image_files fs1 in
                (r, fs2, EvFastStrategy image_dir :: EvFastFailed image_dir :: tr)
            end
          else pil_strategy image_dir output_pdf_path image_files fs
      end
  end.

(** Lines 202-205. *)
Definition sort_chapters (chapters : list string) : list string :=
  match Py.list_sort_key Py.int chapters with
  | Some sorted => sorted
  | None => Py.list_sort chapters
  end.

Definition chapter_pdf_path (album_dir chapter : string) : string :=
  Py.join album_dir (chapter +:+ ".pdf").

(** Line 218, after the call of line 216. *)
Definition chapter_ok (album_dir chapter : string) (fs : gmap string file) : bool :=
  let pdf_path := chapter_pdf_path album_dir chapter in
  let '(result, fs1, _) := images_to_pdf (Py.join album_dir chapter) pdf_path fs in
  match result with
  | Some (String _ _) => path_exists fs1 pdf_path && size_positive fs1 pdf_path
  | _ => false
  end.

(** Lines 211-224: the loop over the chapters. *)
Fixpoint convert_chapters (album_dir : string) (chapters : list string)
    (fs : gmap string file) : list string * gmap string file * list event :=
  match chapters with
  | [] => ([], fs, [])
  | chapter :: rest =>
      let chapter_dir := Py.join album_dir chapter in
      let pdf_path := chapter_pdf_path album_dir chapter in
      let '(result, fs1, tr1) := images_to_pdf chapter_dir pdf_path fs in
      let ok :=
        match result with
        | Some (String _ _) => path_exists fs1 pdf_path && size_positive fs1 pdf_path
        | _ => false
        end in
      let '(pdf_paths, fs2, tr2) := convert_chapters album_dir rest fs1 in
      ((if ok then [pdf_path] else []) ++ pdf_paths, fs2,
       EvChapter chapter :: tr1
         ++ (if ok then [] else [EvChapterFailed chapter]) ++ tr2)
  end.

(** [batch_chapter_to_pdfs] *)
Definition batch_chapter_to_pdfs (album_dir : string) (fs : gmap string file)
  : list string * gmap string file * list event :=
  match scandir env album_dir with
  | ScanOk entries =>
      let chapters := sort_chapters (map entry_name (List.filter is_dir entries)) in
      let '(pdf_paths, fs', tr) := convert_chapters album_dir chapters fs in
      (pdf_paths, fs', EvAlbum album_dir :: tr)
  | _ => ([], fs, [EvAlbum album_dir; EvAlbumError])
  end.

(** Lines 250-254: the entries written into the archive. *)
Fixpoint zip_entries (fs : gmap string file) (pdf_paths : list string)
  : list string * list event :=
  match pdf_paths with
  | [] => ([], [])
  | pdf :: rest =>
      let '(names, tr) := zip_entries fs rest in
      if path_exists fs pdf && size_positive fs pdf
      then (Py.basename pdf :: names, EvZipAdd pdf (Py.basename pdf) :: tr)
      else (names, EvZipSkip pdf :: tr)
  end.

(** [zip_pdfs].  Opening the archive for writing empties the destination
    before the inputs are looked at. *)
Definition zip_pdfs (pdf_paths : list string) (zip_path : string)
    (fs : gmap string file) : option string * gmap string file * list event :=
  match pdf_paths with
  | [] => (None, fs, [EvZipNothing])
  | _ =>
      if makedirs_ok env zip_path && writable env zip_path then
        let fs1 := <[zip_path := Blank]> fs in
        let '(names, tr) := zip_entries fs1 pdf_paths in
        (Some zip_path, <[zip_path := ZipArchive names]> fs,
         tr ++ [EvZipDone zip_path (length pdf_paths)])
      else (None, fs, [EvZipError])
  end.

End Tool.

(* ------------------------------------------------------------------ *)
(** * Vocabulary of the statements *)
(* ------------------------------------------------------------------ *)

(** The base name of a file name: [os.path.splitext(x)[0]]. *)
Definition base_name (x : string) : string := fst (Py.splitext x).

(** [x] comes no later than [y] in the order of the integers that [key]
    reads off them. *)
Definition key_le {A : Type} (key : A -> option Z) (x y : A) : Prop :=
  exists a b, key x = Some a /\ key y = Some b /\ (a <= b)%Z.

(** The bound on the number of open images. *)
Definition batch_bound : Z := Z.of_nat BATCH_SIZE.

(** One event moves the number of open images by at most one. *)
Definition event_step (s : Z) (e : event) : Z := open_count_from s [e].

Definition is_batch_begin (e : event) : Prop :=
  match e with EvBatchBegin _ => True | _ => False end.

(** Along the whole trace, started with [s] open images, the number of
    open images stays between 0 and [B], and is 0 whenever a batch begins. *)
Fixpoint within (B s : Z) (tr : list event) : Prop :=
  (0 <= s <= B)%Z /\
  match tr with
  | [] => True
  | e :: r => (is_batch_begin e -> s = 0%Z) /\ within B (event_step s e) r
  end.

(** Events that neither open nor close an image nor begin a batch. *)
Definition is_neutral (e : event) : Prop :=
  match e with
  | EvImageOpened _ | EvImageClosed _ | EvBatchBegin _ => False
  | _ => True
  end.

(** The events of the batch loop proper. *)
Definition is_batch_event (e : event) : Prop :=
  match e with
  | EvBatchBegin _ | EvImageOpened _ | EvImageSkipped _ | EvBatchEmpty _
  | EvBatchSaved _ _ | EvBatchSaveFailed _ | EvImageClosed _ => True
  | _ => False
  end.

(** The validity test of lines 161 and 251. *)
Definition valid_pdf (fs : gmap string file) (pdf : string) : bool :=
  path_exists fs pdf && size_positive fs pdf.

(** The events of lines 128-140 and of [merge_pdfs]. *)
Definition is_finish_event (e : event) : Prop :=
  match e with
  | EvCopied _ _ | EvMerged _ _ | EvMergeFailed _ | EvNoTempPdf _
  | EvMergeCall _ _ | EvMergerAppend _ | EvMergerSkip _ | EvMergerNoInput _
  | EvMergerWrite _ | EvMergerUnavailable | EvMergerError _ => True
  | _ => False
  end.

(** The events of [images_to_pdf], as opposed to those of the album
    driver and of the packager. *)
Definition is_conversion_event (e : event) : Prop :=
  match e with
  | EvAlbum _ | EvChapter _ | EvChapterFailed _ | EvAlbumError
  | EvZipNothing | EvZipAdd _ _ | EvZipSkip _ | EvZipDone _ _ | EvZipError => False
  | _ => True
  end.

(** The chapters the album driver announces, in order (line 215). *)
Definition announced_chapters (tr : list event) : list string :=
  omap (fun e => match e with EvChapter chapter => Some chapter | _ => None end) tr.

(** The files as the album driver finds them once the chapters [done]
    have been converted. *)
Definition state_after_chapters (env : Env) (album_dir : string) (done : list string)
    (fs : gmap string file) : gmap string file :=
  (convert_chapters env album_dir done fs).1.2.

(** The files as the PIL batch strategy finds them, when the conversion
    gets to it: at once, or after a failed attempt with img2pdf. *)
Definition batch_entry_state (env : Env) (image_dir output_pdf_path : string)
    (image_files : list string) (fs : gmap string file) : option (gmap string file) :=
  if use_img2pdf env image_dir image_files then
    match img2pdf_strategy env image_dir output_pdf_path image_files fs with
    | (true, _) => None
    | (false, fs1) => Some fs1
    end
  else Some fs.

(** Can the image [filename] of [image_dir] be opened (lines 100-103)? *)
Definition opens (fs : gmap string file) (image_dir filename : string) : bool :=
  match image_open fs (Py.join image_dir filename) with
  | Some _ => true
  | None => false
  end.

(** The pages batch [batch_index] contributes: its images that open. *)
Definition batch_pages (fs : gmap string file) (image_dir : string)
    (image_files : list string) (batch_index : nat) : list string :=
  map (Py.join image_dir)
    (List.filter (opens fs image_dir) (batch_files_of BATCH_SIZE image_files batch_index)).

Definition nonempty_pages (pages : list string) : bool :=
  match pages with [] => false | _ => true end.

(** The images of [image_dir] are in [fs] what they are in [fs0]. *)
Definition images_kept (image_dir : string) (image_files : list string)
    (fs0 fs : gmap string file) : Prop :=
  forall f, f ∈ image_files -> fs !! Py.join image_dir f = fs0 !! Py.join image_dir f.

(** The partial PDFs of the batches [indices]: their paths and pages. *)
Definition partial_paths (fs0 : gmap string file) (image_dir temp_dir : string)
    (image_files : list string) (indices : list nat) : list string :=
  map (temp_pdf_path temp_dir)
    (List.filter (fun i => nonempty_pages (batch_pages fs0 image_dir image_files i)) indices).

Definition partial_docs (fs0 : gmap string file) (image_dir : string)
    (image_files : list string) (indices : list nat) : list (list string) :=
  map (batch_pages fs0 image_dir image_files)
    (List.filter (fun i => nonempty_pages (batch_pages fs0 image_dir image_files i)) indices).

(** Does [key] read the integer [k] off [x]? *)
Definition has_key {A : Type} (key : A -> option Z) (k : Z) (x : A) : bool :=
  match key x with
  | Some a => Z.eqb a k
  | None => false
  end.

(** The integer key of an image file: [int(os.path.splitext(x)[0])]. *)
Definition image_key (x : string) : option Z := Py.int (base_name x).

(** The images a trace opens and the images it closes, in order. *)
Definition opened_images (tr : list event) : list string :=
  omap (fun e => match e with EvImageOpened img => Some img | _ => None end) tr.

Definition closed_images (tr : list event) : list string :=
  omap (fun e => match e with EvImageClosed img => Some img | _ => None end) tr.

(** Does batch [batch_index] yield a partial PDF: one of its images opens
    and the save of lines 114-117 succeeds. *)
Definition batch_saved (env : Env) (fs0 : gmap string file) (image_dir temp_dir : string)
    (image_files : list string) (batch_index : nat) : bool :=
  nonempty_pages (batch_pages fs0 image_dir image_files batch_index) &&
  pil_save_ok env (temp_pdf_path temp_dir batch_index)
    (batch_pages fs0 image_dir image_files batch_index).

(** The batches that yield a partial PDF, in order. *)
Definition saved_batches (env : Env) (fs0 : gmap string file) (image_dir temp_dir : string)
    (image_files : list string) : list nat :=
  List.filter (batch_saved env fs0 image_dir temp_dir image_files)
    (seq 0 (batch_count_of BATCH_SIZE (length image_files))).

(** ** A sample album

    The album [album] has the chapters [1] (three images, one of them
    corrupt, and a text file), [2] (one corrupt image) and [10] (a .webp
    image and a cover). *)
Definition file_entry (name : string) : dir_entry :=
  {| entry_name := name; entry_kind_of := RegularFile |}.

Definition subdir_entry (name : string) : dir_entry :=
  {| entry_name := name; entry_kind_of := Directory |}.

Definition sample_scandir (d : string) : scan_result :=
  if String.eqb d "album" then
    ScanOk [subdir_entry "10"; subdir_entry "1"; file_entry "notes.txt"; subdir_entry "2"]
  else if String.eqb d "album/1" then
    ScanOk [file_entry "10.jpg"; file_entry "2.jpg"; file_entry "1.PNG";
            file_entry "readme.txt"]
  else if String.eqb d "album/2" then ScanOk [file_entry "1.jpg"]
  else if String.eqb d "album/10" then
    ScanOk [file_entry "1.webp"; file_entry "cover.jpg"]
  else if String.eqb d "texts" then
    ScanOk [file_entry "readme.txt"; subdir_entry "scans.jpg"]
  else ScanNotFound.

Definition sample_files : gmap string file :=
  list_to_map
    [("album/1/10.jpg", ImageData true); ("album/1/2.jpg", ImageData false);
     ("album/1/1.PNG", ImageData true); ("album/2/1.jpg", ImageData false);
     ("album/10/1.webp", ImageData true); ("album/10/cover.jpg", ImageData true);
     ("old/a.pdf", PdfDoc ["old/a1.jpg"; "old/a2.jpg"]); ("old/b.pdf", Blank)]%string.

(** Everything goes well in the sample environment, except that img2pdf,
    when it is installed, raises. *)
Definition sample_env (img2pdf : bool) : Env :=
  {| IMG2PDF_AVAILABLE := img2pdf;
     PYPDF2_AVAILABLE := true;
     scandir := sample_scandir;
     makedirs_ok := fun _ => true;
     writable := fun _ => true;
     img2pdf_convert := fun _ _ => None;
     mkdtemp := fun _ => Some "/tmp/tmpq3x"%string;
     pil_save_ok := fun _ _ => true |}.

(** ** A sample directory of twelve images

    The directory [long] holds [1.jpg] to [12.jpg], all of them sound; in
    its environment the save of the first batch fails. *)
Definition long_names : list string :=
  map (fun n => pretty n +:+ ".jpg") (seq 1 12).

Definition long_files : gmap string file :=
  list_to_map (map (fun name => (Py.join "long" name, ImageData true)) long_names).

Definition long_env : Env :=
  {| IMG2PDF_AVAILABLE := false;
     PYPDF2_AVAILABLE := false;
     scandir := fun d => if String.eqb d "long" then ScanOk (map file_entry long_names)
                         else ScanNotFound;
     makedirs_ok := fun _ => true;
     writable := fun _ => true;
     img2pdf_convert := fun _ _ => None;
     mkdtemp := fun _ => Some "/tmp/tmpq3x"%string;
     pil_save_ok := fun path _ => negb (String.eqb path "/tmp/tmpq3x/temp_batch_1.pdf") |}.

(* ------------------------------------------------------------------ *)
(** * The built-ins on examples *)
(* ------------------------------------------------------------------ *)

Example splitext_ex1 : Py.splitext "00012.JPG" = ("00012", ".JPG")%string.
Proof. reflexivity. Qed.
Example splitext_ex2 : Py.splitext ".bashrc" = (".bashrc", "")%string.
Proof. reflexivity. Qed.
Example splitext_ex3 : Py.splitext "a.b/c" = ("a.b/c", "")%string.
Proof. reflexivity. Qed.
Example splitext_ex4 : Py.splitext "..x.png" = ("..x", ".png")%string.
Proof. reflexivity. Qed.
Example int_ex1 : Py.int " -0_12 " = Some (-12)%Z.
Proof. reflexivity. Qed.
Example int_ex2 : Py.int "1__2" = None.
Proof. reflexivity. Qed.
Example int_ex3 : Py.int "cover" = None.
Proof. reflexivity. Qed.
Example int_ex4 : Py.int "" = None.
Proof. reflexivity. Qed.
Example join_ex : Py.join "album" "10.pdf" = "album/10.pdf"%string.
Proof. reflexivity. Qed.
Example sort_ex :
  Py.list_sort_key Py.int ["10"; "2"; "1"; "02"]%string
  = Some ["1"; "2"; "02"; "10"]%string.
Proof. reflexivity. Qed.

(* ------------------------------------------------------------------ *)
(** * Sorting *)
(* ------------------------------------------------------------------ *)

Section SortFacts.
Context {A : Type} (leb : A -> A -> bool).

Lemma insert_sorted_perm (x : A) (l : list A) :
  Py.insert_sorted leb x l ≡ₚ x :: l.
Proof.
  induction l as [|y r IH]; simpl; [done|].
  destruct (leb x y); [done|].
  rewrite IH. apply Permutation_swap.
Qed.

Lemma stable_sort_perm (l : list A) : Py.stable_sort leb l ≡ₚ l.
Proof.
  induction l as [|x l IH]; simpl; [done|].
  unfold Py.stable_sort in IH. by rewrite insert_sorted_perm, IH.
Qed.

Hypothesis leb_total : forall x y, leb x y = true \/ leb y x = true.

Lemma insert_sorted_hd (x a : A) (l : list A) :
  leb a x = true -> HdRel (fun u v => leb u v = true) a l ->
  HdRel (fun u v => leb u v = true) a (Py.insert_sorted leb x l).
Proof.
  intros Hax Hhd. destruct l as [|y r]; simpl.
  - by constructor.
  - destruct (leb x y); constructor; [done|]. by inversion Hhd.
Qed.

Lemma insert_sorted_sorted (x : A) (l : list A) :
  Sorted (fun u v => leb u v = true) l ->
  Sorted (fun u v => leb u v = true) (Py.insert_sorted leb x l).
Proof.
  induction 1 as [|y r Hs IH Hhd]; simpl.
  - repeat constructor.
  - destruct (leb x y) eqn:Hxy.
    + constructor; [by constructor|by constructor].
    + constructor; [done|]. apply insert_sorted_hd; [|done].
      destruct (leb_total x y); congruence.
Qed.

Lemma stable_sort_sorted (l : list A) :
  Sorted (fun u v => leb u v = true) (Py.stable_sort leb l).
Proof.
  induction l as [|x l IH]; simpl; [constructor|].
  by apply insert_sorted_sorted.
Qed.
End SortFacts.

Global Instance key_le_trans {A : Type} (key : A -> option Z) :
  Transitive (key_le key).
Proof.
  intros x y z (a & b & Ha & Hb & Hab) (b' & c & Hb' & Hc & Hbc).
  exists a, c. repeat split; [done..|]. assert (b = b') by congruence. lia.
Qed.

Lemma Sorted_Forall_strengthen {A : Type} (R : relation A) (P : A -> Prop) (l : list A) :
  Sorted R l -> Forall P l -> Sorted (fun x y => R x y /\ P x /\ P y) l.
Proof.
  induction 1 as [|x l Hs IH Hhd]; intros HP; [constructor|].
  apply Forall_cons in HP as [HPx HPl]. constructor; [by apply IH|].
  destruct Hhd; constructor. apply Forall_cons in HPl as [? _]. done.
Qed.

Lemma list_sort_key_perm {A : Type} (key : A -> option Z) (l r : list A) :
  Py.list_sort_key key l = Some r -> r ≡ₚ l.
Proof.
  unfold Py.list_sort_key. destruct (mapM key l) as [keys|] eqn:Hk; [|done].
  intros [= <-]. rewrite stable_sort_perm.
  apply length_mapM in Hk. by rewrite snd_zip by lia.
Qed.

Lemma list_sort_key_sorted {A : Type} (key : A -> option Z) (l r : list A) :
  Py.list_sort_key key l = Some r -> StronglySorted (key_le key) r.
Proof.
  unfold Py.list_sort_key. destruct (mapM key l) as [keys|] eqn:Hk; [|done].
  intros [= <-]. apply Sorted_StronglySorted; [apply _|].
  set (leb := fun a b : Z * A => (a.1 <=? b.1)%Z).
  assert (Forall (fun p : Z * A => key p.2 = Some p.1) (Py.stable_sort leb (zip keys l))) as HP.
  { rewrite stable_sort_perm. apply mapM_Some_1 in Hk.
    induction Hk; simpl; constructor; done. }
  assert (Sorted (fun u v => leb u v = true) (Py.stable_sort leb (zip keys l))) as HS.
  { apply stable_sort_sorted. intros x y. unfold leb. lia. }
  pose proof (Sorted_Forall_strengthen _ _ _ HS HP) as HS'.
  apply (Sorted_fmap snd _ (key_le key)) with (2 := HS').
  intros [a x] [b y] (Hab & Hx & Hy); simpl in *.
  exists a, b. unfold leb in Hab; simpl in Hab. repeat split; [done..|lia].
Qed.

Lemma list_sort_key_None {A : Type} (key : A -> option Z) (l : list A) :
  Py.list_sort_key key l = None <-> Exists (fun x => key x = None) l.
Proof.
  unfold Py.list_sort_key. rewrite <- mapM_None.
  destruct (mapM key l); split; congruence.
Qed.

Lemma list_sort_key_Some {A : Type} (key : A -> option Z) (l : list A) :
  Forall (fun x => is_Some (key x)) l -> is_Some (Py.list_sort_key key l).
Proof.
  intros H. unfold Py.list_sort_key.
  destruct (mapM_is_Some_2 key l H) as [keys ->]. eauto.
Qed.

Lemma list_sort_perm (l : list string) : Py.list_sort l ≡ₚ l.
Proof. apply stable_sort_perm. Qed.

Lemma list_sort_sorted (l : list string) : StronglySorted String.le (Py.list_sort l).
Proof.
  apply Sorted_StronglySorted; [apply _|].
  assert (Sorted (fun u v => String.leb u v = true) (Py.list_sort l)) as HS.
  { apply stable_sort_sorted, String.leb_total. }
  clear -HS. induction HS as [|x r Hs IH Hhd]; constructor; [done|].
  destruct Hhd; constructor. unfold String.le. by apply Is_true_true.
Qed.

(** C1.  The file names of a directory come out either in the order of
    the integers their base names spell, which happens exactly when every
    base name parses, or, as soon as one base name does not parse, in the
    plain lexicographic order of the whole list; in both cases the result
    is a rearrangement of the names, ordered throughout. *)
Theorem sort_image_files_all_or_nothing (image_files : list string) :
  sort_image_files image_files ≡ₚ image_files /\
  (Forall (fun x => is_Some (Py.int (base_name x))) image_files ->
     StronglySorted (key_le (fun x => Py.int (base_name x)))
       (sort_image_files image_files)) /\
  (Exists (fun x => Py.int (base_name x) = None) image_files ->
     sort_image_files image_files = Py.list_sort image_files /\
     StronglySorted String.le (sort_image_files image_files)).
Proof.
  unfold sort_image_files.
  change (fun x => Py.int (Py.splitext x).1) with (fun x => Py.int (base_name x)).
  destruct (Py.list_sort_key _ image_files) as [sorted|] eqn:Hs.
  - split; [by eapply list_sort_key_perm|]. split.
    + intros _. by eapply list_sort_key_sorted.
    + intros Hex. apply list_sort_key_None in Hex. congruence.
  - split; [apply list_sort_perm|]. split.
    + intros Hall. apply (list_sort_key_Some _ _) in Hall as [? ?]. congruence.
    + intros _. split; [done|apply list_sort_sorted].
Qed.

(* ------------------------------------------------------------------ *)
(** * Batches *)
(* ------------------------------------------------------------------ *)

Lemma batch_files_of_length (bs : nat) (l : list string) (i : nat) :
  length (batch_files_of bs l i)
  = Nat.min (Nat.min (i * bs + bs) (length l) - i * bs) (length l - i * bs).
Proof.
  unfold batch_files_of, slice. by rewrite length_take, length_drop.
Qed.

Lemma concat_batches_prefix (bs : nat) (l : list string) (k : nat) :
  concat (map (batch_files_of bs l) (seq 0 k)) = take (k * bs) l.
Proof.
  induction k as [|k IH]; [done|].
  rewrite seq_S, map_app, concat_app, IH. simpl. rewrite app_nil_r.
  unfold batch_files_of, slice. rewrite take_take_drop.
  destruct (decide (k * bs + bs <= length l)) as [Hle|Hgt].
  - f_equal. lia.
  - rewrite !take_ge by lia. done.
Qed.

Lemma batch_count_of_bounds (bs n : nat) :
  0 < bs ->
  n <= batch_count_of bs n * bs /\
  (0 < n -> (batch_count_of bs n - 1) * bs < n /\ 0 < batch_count_of bs n) /\
  (n = 0 -> batch_count_of bs n = 0).
Proof.
  intros Hbs. unfold batch_count_of.
  pose proof (Nat.div_mod (n + bs - 1) bs ltac:(lia)) as Hdm.
  pose proof (Nat.mod_upper_bound (n + bs - 1) bs ltac:(lia)) as Hmod.
  set (q := (n + bs - 1) / bs) in *. set (r := (n + bs - 1) mod bs) in *.
  split; [nia|]. split.
  - intros Hn.
    assert (0 < q) by (destruct q; [simpl in *; lia|lia]).
    split; [nia|done].
  - intros ->. subst q. apply Nat.div_small. lia.
Qed.

(** C4.  With a positive batch size the batch loop cuts the sorted list
    into consecutive slices whose concatenation is the list itself; their
    number is the least [k] with [N <= k * batch_size], that is
    [ceil (N / batch_size)]; every slice but the last holds exactly
    [batch_size] names and the last one between one and [batch_size];
    25 names and the batch size 10 give slices of 10, 10 and 5 names. *)
Theorem batches_partition (bs : nat) (image_files : list string) :
  0 < bs ->
  concat (batches_of bs image_files) = image_files /\
  (length image_files <= length (batches_of bs image_files) * bs /\
   forall k, length image_files <= k * bs -> length (batches_of bs image_files) <= k) /\
  (forall i b, batches_of bs image_files !! i = Some b ->
     if decide (S i = length (batches_of bs image_files))
     then 0 < length b <= bs
     else length b = bs) /\
  (length image_files = 25 ->
     map length (batches_of BATCH_SIZE image_files) = [10; 10; 5]).
Proof.
  intros Hbs. unfold batches_of.
  rewrite !length_map, !length_seq.
  pose proof (batch_count_of_bounds bs (length image_files) Hbs) as (Hup & Hlow & Hzero).
  set (k := batch_count_of bs (length image_files)) in *.
  repeat split.
  - rewrite concat_batches_prefix. apply take_ge. lia.
  - done.
  - intros k' Hk'. destruct (decide (length image_files = 0)) as [H0|Hn0].
    + rewrite (Hzero H0). lia.
    + destruct Hlow as [Hlow _]; [lia|]. nia.
  - intros i b Hib.
    apply list_lookup_fmap_Some in Hib as (j & -> & Hj).
    apply lookup_seq in Hj as [-> Hik]. simpl.
    rewrite batch_files_of_length.
    destruct Hlow as [Hlow Hpos]; [lia|].
    case_decide as Hlast.
    + assert (i = k - 1) as -> by lia. lia.
    + assert ((i + 1) * bs <= (k - 1) * bs) by (apply Nat.mul_le_mono_r; lia). lia.
  - intros H25. rewrite H25.
    change (batch_count_of BATCH_SIZE 25) with 3. simpl.
    rewrite !batch_files_of_length, H25. reflexivity.
Qed.

Lemma batches_partition_witness :
  map length (batches_of 2 ["1.jpg"; "2.jpg"; "3.jpg"]%string) = [2; 1] /\
  concat (batches_of 2 ["1.jpg"; "2.jpg"; "3.jpg"]%string)
  = ["1.jpg"; "2.jpg"; "3.jpg"]%string.
Proof.
  split; [reflexivity|].
  apply (batches_partition 2 ["1.jpg"; "2.jpg"; "3.jpg"]%string). lia.
Defined.

(* ------------------------------------------------------------------ *)
(** * Open images along the trace *)
(* ------------------------------------------------------------------ *)

Lemma open_count_from_app (s : Z) (t1 t2 : list event) :
  open_count_from s (t1 ++ t2) = open_count_from (open_count_from s t1) t2.
Proof.
  revert s. induction t1 as [|e t1 IH]; intros s; [done|].
  destruct e; simpl; apply IH.
Qed.

Lemma within_range (B s : Z) (tr : list event) :
  within B s tr -> (0 <= s <= B)%Z.
Proof. destruct tr; simpl; tauto. Qed.

Lemma within_app (B s : Z) (t1 t2 : list event) :
  within B s t1 -> within B (open_count_from s t1) t2 -> within B s (t1 ++ t2).
Proof.
  revert s. induction t1 as [|e t1 IH]; intros s H1 H2; [done|].
  destruct H1 as (Hr & Hb & H1). simpl. split; [done|]. split; [done|].
  apply IH; [done|].
  replace (open_count_from (event_step s e) t1) with (open_count_from s (e :: t1));
    [done|]. unfold event_step. by destruct e.
Qed.

Lemma within_neutral (B s : Z) (tr : list event) :
  (0 <= s <= B)%Z -> Forall is_neutral tr ->
  within B s tr /\ open_count_from s tr = s.
Proof.
  intros Hs Hn. induction Hn as [|e r He Hr IH]; [done|].
  destruct IH as [IHw IHc]. destruct e; simpl in *; try done; repeat split; done.
Qed.

Lemma within_of_neutral (B s : Z) (tr : list event) :
  (0 <= s <= B)%Z -> Forall is_neutral tr -> within B s tr.
Proof. intros Hs Hn. by apply within_neutral. Qed.

Lemma within_take (B s : Z) (tr : list event) (n : nat) :
  within B s tr ->
  (0 <= open_count_from s (take n tr) <= B)%Z /\
  (forall e, tr !! n = Some e -> is_batch_begin e -> open_count_from s (take n tr) = 0%Z).
Proof.
  revert s n. induction tr as [|e r IH]; intros s n Hw.
  - rewrite take_nil. simpl in *. split; [tauto|]. intros e. by rewrite lookup_nil.
  - destruct Hw as (Hr & Hb & Hw). destruct n as [|n].
    + simpl. split; [done|]. intros e' [= <-] He'. auto.
    + specialize (IH _ n Hw) as [IH1 IH2].
      replace (open_count_from s (take (S n) (e :: r)))
        with (open_count_from (event_step s e) (take n r))
        by (unfold event_step; by destruct e).
      split; [done|]. intros e' He'. simpl in He'. by apply IH2.
Qed.

Section OpenImages.
Variable env : Env.

Lemma open_batch_within (fs : gmap string file) (image_dir : string)
    (batch_files_pil : list string) (s : Z) :
  (0 <= s)%Z -> (s + Z.of_nat (length batch_files_pil) <= batch_bound)%Z ->
  let '(batch_images_pil, tr) := open_batch fs image_dir batch_files_pil in
  within batch_bound s tr /\
  open_count_from s tr = (s + Z.of_nat (length batch_images_pil))%Z /\
  length batch_images_pil <= length batch_files_pil.
Proof.
  revert s. induction batch_files_pil as [|f rest IH]; intros s Hs Hle; simpl.
  - repeat split; lia.
  - destruct (image_open fs (Py.join image_dir f)) as [img|] eqn:Hopen.
    + specialize (IH (s + 1)%Z ltac:(lia) ltac:(simpl in Hle; lia)).
      destruct (open_batch fs image_dir rest) as [imgs tr].
      destruct IH as (IHw & IHc & IHl). simpl in *.
      repeat split; try lia; try done.
    + specialize (IH s ltac:(lia) ltac:(simpl in Hle; lia)).
      destruct (open_batch fs image_dir rest) as [imgs tr].
      destruct IH as (IHw & IHc & IHl). simpl in *.
      repeat split; try lia; try done.
Qed.

Lemma closes_within (imgs : list string) (s : Z) :
  (Z.of_nat (length imgs) <= s <= batch_bound)%Z ->
  within batch_bound s (map EvImageClosed imgs) /\
  open_count_from s (map EvImageClosed imgs) = (s - Z.of_nat (length imgs))%Z.
Proof.
  revert s. induction imgs as [|i imgs IH]; intros s Hs; simpl in *.
  - split; [lia|lia].
  - destruct (IH (s - 1)%Z ltac:(lia)) as [IHw IHc].
    repeat split; try lia; try done.
Qed.

Lemma process_batch_within (temp_dir image_dir : string) (image_files : list string)
    (batch_index : nat) (temp_pdfs : list string) (fs : gmap string file) :
  let tr := (process_batch env temp_dir image_dir image_files batch_index temp_pdfs fs).2 in
  within batch_bound 0 tr /\ open_count_from 0 tr = 0%Z.
Proof.
  unfold process_batch.
  pose proof (batch_files_of_length BATCH_SIZE image_files batch_index) as Hlen.
  pose proof (open_batch_within fs image_dir
                (batch_files_of BATCH_SIZE image_files batch_index) 0 ltac:(lia)) as Hopen.
  destruct (open_batch fs image_dir _) as [imgs tr_open].
  destruct Hopen as (Hw & Hc & Hl); [unfold batch_bound; lia|].
  assert (0 <= 0 <= batch_bound)%Z as H0 by (unfold batch_bound; unfold BATCH_SIZE; lia).
  assert (forall e, is_neutral e ->
            within batch_bound 0 (EvBatchBegin (batch_index + 1) :: tr_open
                          ++ e :: map EvImageClosed imgs) /\
            open_count_from 0 (EvBatchBegin (batch_index + 1) :: tr_open
                          ++ e :: map EvImageClosed imgs) = 0%Z) as Hgen.
  { intros e He.
    destruct (closes_within imgs (Z.of_nat (length imgs))) as [Hcw Hcc].
    { unfold batch_bound. lia. }
    assert (open_count_from 0 (tr_open ++ e :: map EvImageClosed imgs) = 0%Z) as Hnet.
    { rewrite open_count_from_app, Hc.
      replace (open_count_from (0 + Z.of_nat (length imgs)) (e :: map EvImageClosed imgs))
        with (open_count_from (Z.of_nat (length imgs)) (map EvImageClosed imgs))
        by (destruct e; simpl in *; done || f_equal; lia).
      rewrite Hcc. lia. }
    split; [|exact Hnet].
    simpl. split; [done|]. split; [done|].
    change (within batch_bound 0 (tr_open ++ e :: map EvImageClosed imgs)).
    apply within_app; [done|]. rewrite Hc. simpl.
    split; [unfold batch_bound; lia|]. split; [by destruct e|].
    replace (event_step (0 + Z.of_nat (length imgs)) e) with (Z.of_nat (length imgs))
      by (destruct e; simpl in *; done || (unfold event_step; simpl; lia)).
    done. }
  destruct imgs as [|i imgs].
  - simpl in *. split.
    + split; [done|]. split; [done|].
      change (within batch_bound 0 (tr_open ++ [EvBatchEmpty (batch_index + 1)])).
      apply within_app; [done|].
      rewrite Hc. simpl. unfold event_step. simpl. repeat split; intros; lia.
    + change (open_count_from 0 (tr_open ++ [EvBatchEmpty (batch_index + 1)]) = 0%Z).
      rewrite open_count_from_app, Hc. done.
  - destruct (pil_save_ok env _ _); simpl; apply Hgen; exact I.
Qed.

Lemma run_batches_within (temp_dir image_dir : string) (image_files : list string)
    (indices : list nat) (temp_pdfs : list string) (fs : gmap string file) :
  let tr := (run_batches env temp_dir image_dir image_files indices temp_pdfs fs).2 in
  within batch_bound 0 tr /\ open_count_from 0 tr = 0%Z.
Proof.
  revert temp_pdfs fs. induction indices as [|i rest IH]; intros temp_pdfs fs; simpl.
  - split; [|done]. split; [unfold batch_bound; unfold BATCH_SIZE; lia|done].
  - pose proof (process_batch_within temp_dir image_dir image_files i temp_pdfs fs) as H1.
    destruct (process_batch env temp_dir image_dir image_files i temp_pdfs fs)
      as [[temp_pdfs1 fs1] tr1].
    specialize (IH temp_pdfs1 fs1).
    destruct (run_batches env temp_dir image_dir image_files rest temp_pdfs1 fs1)
      as [[temp_pdfs2 fs2] tr2].
    simpl in *. destruct H1 as [H1w H1c], IH as [H2w H2c]. split.
    + apply within_app; [done|]. by rewrite H1c.
    + by rewrite open_count_from_app, H1c.
Qed.
End OpenImages.

Section OpenImagesWhole.
Variable env : Env.

Lemma merger_append_all_events (fs : gmap string file) (pdf_paths : list string)
    (inputs : list (list string)) :
  Forall is_finish_event (merger_append_all fs pdf_paths inputs).2.
Proof.
  revert inputs. induction pdf_paths as [|pdf rest IH]; intros inputs; simpl; [done|].
  destruct (path_exists fs pdf && size_positive fs pdf).
  - destruct (fs !! pdf) as [[| | pages | |]|]; simpl; try by repeat constructor.
    specialize (IH (inputs ++ [pages])).
    destruct (merger_append_all fs rest (inputs ++ [pages])). by constructor.
  - specialize (IH inputs). destruct (merger_append_all fs rest inputs). by constructor.
Qed.

Lemma merge_pdfs_events (pdf_paths : list string) (output_path : string)
    (fs : gmap string file) :
  Forall is_finish_event (merge_pdfs env pdf_paths output_path fs).2.
Proof.
  unfold merge_pdfs. destruct (PYPDF2_AVAILABLE env); simpl; [|by repeat constructor].
  pose proof (merger_append_all_events fs pdf_paths []) as Hn.
  destruct (merger_append_all fs pdf_paths []) as [[[|i inputs]|] tr]; simpl in *.
  - constructor; [done|]. apply Forall_app. split; [done|by repeat constructor].
  - destruct (writable env output_path); simpl;
      (constructor; [done|]; apply Forall_app; split; [done|by repeat constructor]).
  - constructor; [done|]. apply Forall_app. split; [done|by repeat constructor].
Qed.

Lemma finish_batches_events (image_dir output_pdf_path : string)
    (temp_pdfs : list string) (fs : gmap string file) :
  Forall is_finish_event (finish_batches env image_dir output_pdf_path temp_pdfs fs).2.
Proof.
  unfold finish_batches. destruct temp_pdfs as [|p [|q rest]].
  - by repeat constructor.
  - destruct (copy2 env p output_pdf_path fs); by repeat constructor.
  - pose proof (merge_pdfs_events (p :: q :: rest) output_pdf_path fs) as Hn.
    destruct (merge_pdfs env (p :: q :: rest) output_pdf_path fs) as [[[|] fs'] tr];
      simpl in *; (apply Forall_app; split; [done|by repeat constructor]).
Qed.

Lemma finish_batches_neutral (image_dir output_pdf_path : string)
    (temp_pdfs : list string) (fs : gmap string file) :
  Forall is_neutral (finish_batches env image_dir output_pdf_path temp_pdfs fs).2.
Proof.
  eapply Forall_impl; [apply finish_batches_events|]. by intros [].
Qed.

Lemma pil_strategy_within (image_dir output_pdf_path : string)
    (image_files : list string) (fs : gmap string file) :
  within batch_bound 0 (pil_strategy env image_dir output_pdf_path image_files fs).2.
Proof.
  assert (0 <= 0 <= batch_bound)%Z as H0 by (unfold batch_bound; unfold BATCH_SIZE; lia).
  unfold pil_strategy. destruct (mkdtemp env fs) as [temp_dir|].
  2: { apply within_of_neutral; [done|by repeat constructor]. }
  pose proof (run_batches_within env temp_dir image_dir image_files
                (seq 0 (batch_count_of BATCH_SIZE (length image_files))) [] fs) as Hrun.
  destruct (run_batches env temp_dir image_dir image_files _ [] fs)
    as [[temp_pdfs fs1] tr1].
  pose proof (finish_batches_neutral image_dir output_pdf_path temp_pdfs fs1) as Hfin.
  destruct (finish_batches env image_dir output_pdf_path temp_pdfs fs1)
    as [[how fs2] tr2].
  simpl in *. destruct Hrun as [Hw Hc].
  assert (forall tail, Forall is_neutral tail ->
            within batch_bound 0 (EvBatchStrategy image_dir
                          :: EvBatchPlan (length image_files)
                               (batch_count_of BATCH_SIZE (length image_files))
                          :: tr1 ++ tr2 ++ tail)) as Hgen.
  { intros tail Htail. simpl. split; [done|]. split; [done|].
    split; [done|]. split; [done|].
    change (within batch_bound 0 (tr1 ++ tr2 ++ tail)). 
    apply within_app; [done|]. rewrite Hc.
    apply within_of_neutral; [done|]. by apply Forall_app. }
  destruct how; simpl.
  - specialize (Hgen [] ltac:(constructor)). by rewrite app_nil_r in Hgen.
  - apply Hgen. by repeat constructor.
  - apply Hgen. by repeat constructor.
Qed.

Lemma images_to_pdf_within (image_dir output_pdf_path : string) (fs : gmap string file) :
  within batch_bound 0 (images_to_pdf env image_dir output_pdf_path fs).2.
Proof.
  assert (0 <= 0 <= batch_bound)%Z as H0 by (unfold batch_bound; unfold BATCH_SIZE; lia).
  unfold images_to_pdf.
  destruct (scandir env image_dir) as [entries| |];
    try (apply within_of_neutral; [done|by repeat constructor]).
  destruct (sort_image_files (list_image_files entries)) as [|f image_files];
    [apply within_of_neutral; [done|by repeat constructor]|].
  destruct (makedirs_ok env output_pdf_path); cbn [negb];
    [|apply within_of_neutral; [done|by repeat constructor]].
  destruct (use_img2pdf env image_dir (f :: image_files)).
  - destruct (img2pdf_strategy env image_dir output_pdf_path (f :: image_files) fs)
      as [[|] fs1].
    + apply within_of_neutral; [done|by repeat constructor].
    + pose proof (pil_strategy_within image_dir output_pdf_path (f :: image_files) fs1) as Hp.
      destruct (pil_strategy env image_dir output_pdf_path (f :: image_files) fs1)
        as [[r fs2] tr].
      simpl in *. repeat (split; [done|]). done.
  - apply pil_strategy_within.
Qed.
End OpenImagesWhole.


(* ------------------------------------------------------------------ *)
(** * Choice of the strategy *)
(* ------------------------------------------------------------------ *)

Lemma str_in_spec (s : string) (l : list string) : str_in s l = true <-> s ∈ l.
Proof.
  unfold str_in. rewrite existsb_exists. split.
  - intros (x & Hx & Heq). apply String.eqb_eq in Heq as ->. by apply list_elem_of_In.
  - intros Hs. exists s. split; [by apply list_elem_of_In|apply String.eqb_refl].
Qed.

Lemma get_image_formats_flag (image_dir : string) (image_files : list string) :
  (get_image_formats image_dir image_files).2 = false <->
  Forall (fun f => ext_lower f ∈ img2pdf_extensions) image_files.
Proof.
  unfold get_image_formats.
  assert (forall (acc : gset string * bool),
            (fold_left
               (fun '(formats, unsupported_by_img2pdf) filename =>
                  let ext := ext_lower filename in
                  ({[ ext ]} ∪ formats,
                   if negb (str_in ext img2pdf_extensions) then true
                   else unsupported_by_img2pdf))
               image_files acc).2 = false <->
            acc.2 = false /\
            Forall (fun f => ext_lower f ∈ img2pdf_extensions) image_files) as Hgen.
  { induction image_files as [|f l IH]; intros [formats flag]; cbn [fold_left snd].
    - split; [by intros ->|by intros [-> _]].
    - rewrite IH. cbn [snd]. rewrite Forall_cons, <- str_in_spec.
      destruct (str_in (ext_lower f) img2pdf_extensions); cbn [negb].
      + intuition.
      + split; [intros [[=] _]|intros [_ [[=] _]]]. }
  rewrite Hgen. simpl. tauto.
Qed.

Lemma use_img2pdf_spec (env : Env) (image_dir : string) (image_files : list string) :
  use_img2pdf env image_dir image_files = true <->
  IMG2PDF_AVAILABLE env = true /\
  Forall (fun f => ext_lower f ∈ img2pdf_extensions) image_files.
Proof.
  unfold use_img2pdf.
  pose proof (get_image_formats_flag image_dir image_files) as Hflag.
  destruct (get_image_formats image_dir image_files) as [formats flag]. simpl in Hflag.
  rewrite <- Hflag, andb_true_iff, negb_true_iff. done.
Qed.

Lemma pil_strategy_head (env : Env) (image_dir output_pdf_path : string)
    (image_files : list string) (fs : gmap string file) :
  head (pil_strategy env image_dir output_pdf_path image_files fs).2
  = Some (EvBatchStrategy image_dir).
Proof.
  unfold pil_strategy. destruct (mkdtemp env fs); [|done].
  destruct (run_batches _ _ _ _ _ _ _) as [[? ?] ?].
  destruct (finish_batches _ _ _ _ _) as [[[| |] ?] ?]; done.
Qed.

(** C3.  Once a directory has images and the destination directory
    exists, the conversion starts with the img2pdf strategy exactly when
    img2pdf is available and the lower-cased extension of every file is
    one of .jpg, .jpeg, .png; a .webp or .bmp file makes the conversion
    the PIL batch strategy; and when the img2pdf strategy fails, the
    conversion goes on with the PIL batch strategy and returns what that
    one returns.  The PIL batch strategy announces itself first. *)
Theorem fast_path_selection (env : Env) (image_dir output_pdf_path : string)
    (fs : gmap string file) (entries : list dir_entry) :
  scandir env image_dir = ScanOk entries ->
  sort_image_files (list_image_files entries) <> [] ->
  makedirs_ok env output_pdf_path = true ->
  let image_files := sort_image_files (list_image_files entries) in
  let run := images_to_pdf env image_dir output_pdf_path fs in
  (head run.2 = Some (EvFastStrategy image_dir) <->
     IMG2PDF_AVAILABLE env = true /\
     Forall (fun f => ext_lower f ∈ img2pdf_extensions) image_files) /\
  (Exists (fun f => ext_lower f = ".webp"%string \/ ext_lower f = ".bmp"%string)
     image_files ->
     run = pil_strategy env image_dir output_pdf_path image_files fs) /\
  (head run.2 = Some (EvFastStrategy image_dir) ->
   forall fs1,
     img2pdf_strategy env image_dir output_pdf_path image_files fs = (false, fs1) ->
     run.1 = (pil_strategy env image_dir output_pdf_path image_files fs1).1 /\
     run.2 = EvFastStrategy image_dir :: EvFastFailed image_dir
               :: (pil_strategy env image_dir output_pdf_path image_files fs1).2) /\
  (forall fs0,
     head (pil_strategy env image_dir output_pdf_path image_files fs0).2
     = Some (EvBatchStrategy image_dir)).
Proof.
  intros Hscan Hne Hmk image_files run. subst run. unfold images_to_pdf.
  rewrite Hscan, Hmk. fold image_files in Hne |- *.
  destruct image_files as [|f l] eqn:Hfiles; [done|]. cbn [negb].
  pose proof (use_img2pdf_spec env image_dir (f :: l)) as Huse.
  pose proof (pil_strategy_head env image_dir output_pdf_path (f :: l)) as Hhead.
  destruct (use_img2pdf env image_dir (f :: l)) eqn:Hu.
  - assert (IMG2PDF_AVAILABLE env = true /\
            Forall (fun f => ext_lower f ∈ img2pdf_extensions) (f :: l)) as Hall
      by by apply Huse.
    split; [|split; [|split]].
    + split; [done|]. intros _.
      destruct (img2pdf_strategy env image_dir output_pdf_path (f :: l) fs) as [[|] fs1];
        [done|]. by destruct (pil_strategy _ _ _ _ fs1) as [[? ?] ?].
    + intros Hex. exfalso. destruct Hall as [_ Hall].
      rewrite Forall_forall in Hall. apply Exists_exists in Hex as (x & Hx & Hext).
      specialize (Hall x Hx). unfold img2pdf_extensions in Hall.
      destruct Hext as [Hext|Hext]; rewrite Hext in Hall;
        by apply (proj2 (str_in_spec _ _)) in Hall.
    + intros _ fs1 ->. by destruct (pil_strategy _ _ _ _ fs1) as [[? ?] ?].
    + done.
  - split; [|split; [|split]].
    + split.
      * intros Hfast. rewrite Hhead in Hfast. done.
      * intros Hall. assert (false = true) by by apply Huse. done.
    + done.
    + intros Hfast. rewrite Hhead in Hfast. done.
    + done.
Qed.

(* ------------------------------------------------------------------ *)
(** * The end of the batch strategy *)
(* ------------------------------------------------------------------ *)

Section BatchEnd.
Variable env : Env.

Lemma open_batch_events (fs : gmap string file) (image_dir : string)
    (batch_files_pil : list string) :
  Forall is_batch_event (open_batch fs image_dir batch_files_pil).2.
Proof.
  induction batch_files_pil as [|f rest IH]; simpl; [done|].
  destruct (open_batch fs image_dir rest) as [imgs tr].
  destruct (image_open fs (Py.join image_dir f)); by constructor.
Qed.

Lemma process_batch_events (temp_dir image_dir : string) (image_files : list string)
    (batch_index : nat) (temp_pdfs : list string) (fs : gmap string file) :
  Forall is_batch_event
    (process_batch env temp_dir image_dir image_files batch_index temp_pdfs fs).2.
Proof.
  unfold process_batch.
  pose proof (open_batch_events fs image_dir
                (batch_files_of BATCH_SIZE image_files batch_index)) as Hopen.
  destruct (open_batch fs image_dir _) as [imgs tr_open]. simpl in Hopen.
  assert (Forall is_batch_event (map EvImageClosed imgs)) as Hclose.
  { apply Forall_forall. intros e He. apply list_elem_of_fmap in He as (? & -> & _). done. }
  destruct imgs as [|i imgs].
  - simpl. constructor; [done|]. apply Forall_app. split; [done|by repeat constructor].
  - destruct (pil_save_ok env _ _); simpl;
      (constructor; [done|]; apply Forall_app; split; [done|]; by constructor).
Qed.

Lemma run_batches_events (temp_dir image_dir : string) (image_files : list string)
    (indices : list nat) (temp_pdfs : list string) (fs : gmap string file) :
  Forall is_batch_event
    (run_batches env temp_dir image_dir image_files indices temp_pdfs fs).2.
Proof.
  revert temp_pdfs fs. induction indices as [|i rest IH]; intros temp_pdfs fs; simpl.
  - constructor.
  - pose proof (process_batch_events temp_dir image_dir image_files i temp_pdfs fs) as H1.
    destruct (process_batch env temp_dir image_dir image_files i temp_pdfs fs)
      as [[temp_pdfs1 fs1] tr1].
    specialize (IH temp_pdfs1 fs1).
    destruct (run_batches env temp_dir image_dir image_files rest temp_pdfs1 fs1)
      as [[temp_pdfs2 fs2] tr2].
    simpl in *. by apply Forall_app.
Qed.

Lemma merge_pdfs_announces (pdf_paths : list string) (output_path : string)
    (fs : gmap string file) :
  exists tr, (merge_pdfs env pdf_paths output_path fs).2
             = EvMergeCall pdf_paths output_path :: tr.
Proof.
  unfold merge_pdfs. destruct (PYPDF2_AVAILABLE env); simpl; [|eauto].
  destruct (merger_append_all fs pdf_paths []) as [[[|i inputs]|] tr]; simpl; eauto.
  destruct (writable env output_path); simpl; eauto.
Qed.

End BatchEnd.

(* ------------------------------------------------------------------ *)
(** * The merger *)
(* ------------------------------------------------------------------ *)

Section Merger.
Variable env : Env.

Lemma merger_append_all_valid (fs : gmap string file) (pdf_paths : list string)
    (inputs : list (list string)) (pdf : string) :
  EvMergerAppend pdf ∈ (merger_append_all fs pdf_paths inputs).2 ->
  pdf ∈ pdf_paths /\ valid_pdf fs pdf = true.
Proof.
  revert inputs. induction pdf_paths as [|p rest IH]; intros inputs; simpl.
  - by intros ?%elem_of_nil.
  - destruct (path_exists fs p && size_positive fs p) eqn:Hvalid.
    + assert (forall tr, EvMergerAppend pdf ∈ EvMergerAppend p :: tr ->
                (EvMergerAppend pdf ∈ tr -> pdf ∈ rest /\ valid_pdf fs pdf = true) ->
                pdf ∈ p :: rest /\ valid_pdf fs pdf = true) as Hstep.
      { intros tr [[= ->]|Hin]%elem_of_cons Htr; [split; [set_solver|done]|].
        destruct (Htr Hin). split; [set_solver|done]. }
      destruct (fs !! p) as [[| | pages | |]|] eqn:Hp; simpl;
        try (intros Hin; apply (Hstep [] Hin); by intros ?%elem_of_nil).
      specialize (IH (inputs ++ [pages])).
      destruct (merger_append_all fs rest (inputs ++ [pages])) as [r tr]. simpl in *.
      intros Hin. by apply (Hstep tr).
    + specialize (IH inputs).
      destruct (merger_append_all fs rest inputs) as [r tr]. simpl in *.
      intros [[=]|Hin]%elem_of_cons. destruct (IH Hin). split; [set_solver|done].
Qed.

Lemma merger_append_all_invalid (fs : gmap string file) (pdf_paths : list string)
    (inputs : list (list string)) :
  Forall (fun pdf => valid_pdf fs pdf = false) pdf_paths ->
  merger_append_all fs pdf_paths inputs = (Some inputs, map EvMergerSkip pdf_paths).
Proof.
  induction 1 as [|p rest Hp Hrest IH]; simpl; [done|].
  unfold valid_pdf in Hp. by rewrite Hp, IH.
Qed.

(** Skipping the invalid paths changes nothing but the trace. *)
Lemma merger_append_all_filter (fs : gmap string file) (pdf_paths : list string)
    (inputs : list (list string)) :
  (merger_append_all fs pdf_paths inputs).1
  = (merger_append_all fs (List.filter (valid_pdf fs) pdf_paths) inputs).1.
Proof.
  revert inputs. induction pdf_paths as [|p rest IH]; intros inputs; simpl; [done|].
  unfold valid_pdf at 1. destruct (path_exists fs p && size_positive fs p) eqn:Hvalid.
  - simpl. rewrite Hvalid. destruct (fs !! p) as [[| | pages | |]|]; try done.
    specialize (IH (inputs ++ [pages])).
    destruct (merger_append_all fs rest (inputs ++ [pages])).
    destruct (merger_append_all fs (List.filter (valid_pdf fs) rest) (inputs ++ [pages])).
    done.
  - specialize (IH inputs). destruct (merger_append_all fs rest inputs). done.
Qed.

Lemma merger_append_all_docs (fs : gmap string file) (pdf_paths : list string)
    (docs inputs : list (list string)) :
  Forall2 (fun pdf pages => fs !! pdf = Some (PdfDoc pages)) pdf_paths docs ->
  merger_append_all fs pdf_paths inputs
  = (Some (inputs ++ docs), map EvMergerAppend pdf_paths).
Proof.
  intros H. revert inputs. induction H as [|p pages rest docs Hp Hrest IH]; intros inputs.
  - simpl. by rewrite app_nil_r.
  - simpl. unfold path_exists, size_positive. rewrite Hp. simpl.
    rewrite IH. by rewrite <- app_assoc.
Qed.

Lemma merge_pdfs_docs (pdf_paths : list string) (docs : list (list string))
    (output_path : string) (fs : gmap string file) :
  PYPDF2_AVAILABLE env = true -> writable env output_path = true ->
  pdf_paths <> [] ->
  Forall2 (fun pdf pages => fs !! pdf = Some (PdfDoc pages)) pdf_paths docs ->
  (merge_pdfs env pdf_paths output_path fs).1
  = (true, <[output_path := PdfDoc (concat docs)]> fs).
Proof.
  intros Hlib Hw Hne Hdocs. unfold merge_pdfs. rewrite Hlib. simpl.
  rewrite (merger_append_all_docs _ _ docs) by done. simpl.
  destruct docs as [|d docs]; [by inversion Hdocs|]. by rewrite Hw.
Qed.

(** C7.  The merger appends a path only if the file exists and is not
    empty; when no input passes this test it returns false and leaves
    every file as it was, without a write; and with PyPDF2 installed and
    the destination writable, merging one PDF and one zero-byte file, in
    either order, returns true and writes the pages of the PDF alone.
    In general the result depends on the valid inputs only. *)
Theorem merge_pdfs_validity (pdf_paths : list string) (output_path : string)
    (fs : gmap string file) :
  let run := merge_pdfs env pdf_paths output_path fs in
  (forall pdf, EvMergerAppend pdf ∈ run.2 ->
     pdf ∈ pdf_paths /\ path_exists fs pdf = true /\ size_positive fs pdf = true) /\
  (Forall (fun pdf => valid_pdf fs pdf = false) pdf_paths ->
     run.1.1 = false /\ run.1.2 = fs /\ EvMergerWrite output_path ∉ run.2) /\
  (forall good bad pages,
     PYPDF2_AVAILABLE env = true -> writable env output_path = true ->
     fs !! good = Some (PdfDoc pages) -> fs !! bad = Some Blank ->
     pdf_paths = [good; bad] \/ pdf_paths = [bad; good] ->
     run.1 = (true, <[output_path := PdfDoc pages]> fs) /\
     EvMergerSkip bad ∈ run.2) /\
  run.1 = (merge_pdfs env (List.filter (valid_pdf fs) pdf_paths) output_path fs).1.
Proof.
  intros run. subst run. split; [|split; [|split]].
  - intros pdf. unfold merge_pdfs.
    destruct (PYPDF2_AVAILABLE env); simpl; [|set_solver].
    pose proof (merger_append_all_valid fs pdf_paths [] pdf) as Hv.
    destruct (merger_append_all fs pdf_paths []) as [[[|i inputs]|] tr]; simpl in *.
    + intros Hin. destruct Hv as [? [? ?]%andb_true_iff]; [set_solver|done].
    + destruct (writable env output_path); simpl;
        intros Hin; (destruct Hv as [? [? ?]%andb_true_iff]; [set_solver|done]).
    + intros Hin. destruct Hv as [? [? ?]%andb_true_iff]; [set_solver|done].
  - intros Hinv. unfold merge_pdfs.
    destruct (PYPDF2_AVAILABLE env); simpl; [|set_solver].
    rewrite merger_append_all_invalid by done. simpl.
    split; [done|]. split; [done|].
    intros [[=]|[Hin|Hin]%elem_of_app]%elem_of_cons.
    + apply list_elem_of_fmap in Hin as (? & [=] & _).
    + apply list_elem_of_singleton in Hin. done.
  - intros good bad pages Hlib Hw Hgood Hbad Hpaths. unfold merge_pdfs. rewrite Hlib. simpl.
    destruct Hpaths as [-> | ->]; simpl; unfold path_exists, size_positive;
      rewrite ?Hgood, ?Hbad; simpl; rewrite ?Hgood, ?Hw; simpl; rewrite ?app_nil_r;
      (split; [done|]); repeat first [by apply list_elem_of_here | apply list_elem_of_further].
  - unfold merge_pdfs. destruct (PYPDF2_AVAILABLE env); simpl; [|done].
    pose proof (merger_append_all_filter fs pdf_paths []) as Hf.
    destruct (merger_append_all fs pdf_paths []) as [r tr].
    destruct (merger_append_all fs (List.filter (valid_pdf fs) pdf_paths) []) as [r' tr'].
    simpl in Hf. subst r'. destruct r as [[|i inputs]|]; simpl; [done| |done].
    by destruct (writable env output_path).
Qed.
End Merger.

(* ------------------------------------------------------------------ *)
(** * Directories without images *)
(* ------------------------------------------------------------------ *)

Lemma list_image_files_nil (entries : list dir_entry) :
  Forall (fun e => is_file e = true -> ext_lower (entry_name e) ∉ allowed_extensions)
    entries ->
  list_image_files entries = [].
Proof.
  unfold list_image_files. induction 1 as [|e rest He Hrest IH]; [done|].
  cbn [List.filter].
  destruct (is_file e) eqn:Hfile; cbn [andb]; [|done].
  destruct (str_in (ext_lower (entry_name e)) allowed_extensions) eqn:Hin; [|done].
  apply str_in_spec in Hin. by destruct He.
Qed.

(** C8.  When the source directory does not exist, or holds no regular
    file whose lower-cased extension is one of .jpg, .jpeg, .png, .webp,
    .bmp, the conversion returns nothing and leaves every file as it was;
    in particular nothing is created at the destination. *)
Theorem no_images_no_output (env : Env) (image_dir output_pdf_path : string)
    (fs : gmap string file) :
  (scandir env image_dir = ScanNotFound \/
   exists entries,
     scandir env image_dir = ScanOk entries /\
     Forall (fun e => is_file e = true ->
                      ext_lower (entry_name e) ∉ allowed_extensions) entries) ->
  (images_to_pdf env image_dir output_pdf_path fs).1 = (None, fs) /\
  (images_to_pdf env image_dir output_pdf_path fs).1.2 !! output_pdf_path
  = fs !! output_pdf_path.
Proof.
  intros [Hmissing|(entries & Hscan & Hnone)]; unfold images_to_pdf.
  - by rewrite Hmissing.
  - rewrite Hscan, (list_image_files_nil _ Hnone). done.
Qed.

(* ------------------------------------------------------------------ *)
(** * The archive *)
(* ------------------------------------------------------------------ *)

Lemma zip_entries_invalid (fs : gmap string file) (pdf_paths : list string) :
  Forall (fun pdf => valid_pdf fs pdf = false) pdf_paths ->
  zip_entries fs pdf_paths = ([], map EvZipSkip pdf_paths).
Proof.
  induction 1 as [|p rest Hp Hrest IH]; simpl; [done|].
  unfold valid_pdf in Hp. by rewrite IH, Hp.
Qed.

Lemma valid_pdf_false (fs : gmap string file) (pdf : string) :
  valid_pdf fs pdf = false <-> fs !! pdf = None \/ fs !! pdf = Some Blank.
Proof.
  unfold valid_pdf, path_exists, size_positive.
  destruct (fs !! pdf) as [[]|]; simpl; split; intros H; try done; eauto;
    by destruct H.
Qed.

(** C10.  Given a non-empty list of paths each of which is missing or
    names an empty file, and a destination that can be created and
    written, the packager returns the destination and leaves there an
    archive without entries, every input having been skipped; for the
    empty list it returns nothing and writes nothing. *)
Theorem zip_pdfs_all_invalid (env : Env) (pdf_paths : list string) (zip_path : string)
    (fs : gmap string file) :
  pdf_paths <> [] ->
  Forall (fun pdf => fs !! pdf = None \/ fs !! pdf = Some Blank) pdf_paths ->
  makedirs_ok env zip_path = true ->
  writable env zip_path = true ->
  zip_pdfs env pdf_paths zip_path fs
  = (Some zip_path, <[zip_path := ZipArchive []]> fs,
     map EvZipSkip pdf_paths ++ [EvZipDone zip_path (length pdf_paths)]) /\
  zip_pdfs env [] zip_path fs = (None, fs, [EvZipNothing]).
Proof.
  intros Hne Hinv Hmk Hw. split; [|done].
  unfold zip_pdfs. destruct pdf_paths as [|p rest]; [done|].
  rewrite Hmk, Hw. cbn [andb].
  rewrite zip_entries_invalid; [done|].
  eapply Forall_impl; [exact Hinv|]. intros pdf Hpdf. apply valid_pdf_false.
  destruct (decide (zip_path = pdf)) as [->|Hneq].
  - right. apply lookup_insert_eq.
  - rewrite lookup_insert_ne by done. done.
Qed.

(* ------------------------------------------------------------------ *)
(** * The album driver *)
(* ------------------------------------------------------------------ *)

Section Album.
Variable env : Env.

Lemma pil_strategy_events (image_dir output_pdf_path : string)
    (image_files : list string) (fs : gmap string file) :
  Forall is_conversion_event (pil_strategy env image_dir output_pdf_path image_files fs).2.
Proof.
  unfold pil_strategy. destruct (mkdtemp env fs) as [temp_dir|]; [|by repeat constructor].
  pose proof (run_batches_events env temp_dir image_dir image_files
                (seq 0 (batch_count_of BATCH_SIZE (length image_files))) [] fs) as Hrun.
  destruct (run_batches env temp_dir image_dir image_files _ [] fs)
    as [[temp_pdfs fs1] tr1].
  pose proof (finish_batches_events env image_dir output_pdf_path temp_pdfs fs1) as Hfin.
  destruct (finish_batches env image_dir output_pdf_path temp_pdfs fs1)
    as [[how fs2] tr2].
  simpl in Hrun, Hfin.
  assert (Forall is_conversion_event tr1) as H1
    by (eapply Forall_impl; [exact Hrun|]; by intros []).
  assert (Forall is_conversion_event tr2) as H2
    by (eapply Forall_impl; [exact Hfin|]; by intros []).
  destruct how; simpl; repeat (constructor; [done|]);
    rewrite ?Forall_app; repeat split; try done; by repeat constructor.
Qed.

Lemma images_to_pdf_events (image_dir output_pdf_path : string) (fs : gmap string file) :
  Forall is_conversion_event (images_to_pdf env image_dir output_pdf_path fs).2.
Proof.
  unfold images_to_pdf.
  destruct (scandir env image_dir) as [entries| |]; try by repeat constructor.
  destruct (sort_image_files (list_image_files entries)) as [|f image_files];
    [by repeat constructor|].
  destruct (makedirs_ok env output_pdf_path); cbn [negb]; [|by repeat constructor].
  destruct (use_img2pdf env image_dir (f :: image_files)).
  - destruct (img2pdf_strategy env image_dir output_pdf_path (f :: image_files) fs)
      as [[|] fs1]; [by repeat constructor|].
    pose proof (pil_strategy_events image_dir output_pdf_path (f :: image_files) fs1) as Hp.
    destruct (pil_strategy env image_dir output_pdf_path (f :: image_files) fs1)
      as [[r fs2] tr].
    simpl in *. by repeat (constructor; [done|]).
  - apply pil_strategy_events.
Qed.

Lemma announced_chapters_conversion (tr : list event) :
  Forall is_conversion_event tr -> announced_chapters tr = [].
Proof.
  unfold announced_chapters. induction 1 as [|e r He Hr IH]; [done|].
  destruct e; simpl in *; done.
Qed.

Lemma convert_chapters_announced (album_dir : string) (chapters : list string)
    (fs : gmap string file) :
  announced_chapters (convert_chapters env album_dir chapters fs).2 = chapters.
Proof.
  revert fs. induction chapters as [|c rest IH]; intros fs; simpl; [done|].
  pose proof (images_to_pdf_events (Py.join album_dir c)
                (chapter_pdf_path album_dir c) fs) as Hev.
  destruct (images_to_pdf env (Py.join album_dir c) (chapter_pdf_path album_dir c) fs)
    as [[result fs1] tr1].
  specialize (IH fs1).
  destruct (convert_chapters env album_dir rest fs1) as [[pdf_paths fs2] tr2].
  simpl in *. unfold announced_chapters in *. simpl.
  rewrite !omap_app. fold (announced_chapters tr1).
  rewrite (announced_chapters_conversion _ Hev), IH. simpl.
  f_equal. by destruct (match result with Some (String _ _) => _ | _ => false end).
Qed.

Lemma state_after_chapters_cons (album_dir c : string) (done : list string)
    (fs : gmap string file) :
  state_after_chapters env album_dir (c :: done) fs
  = state_after_chapters env album_dir done
      (images_to_pdf env (Py.join album_dir c) (chapter_pdf_path album_dir c) fs).1.2.
Proof.
  unfold state_after_chapters. cbn [convert_chapters].
  destruct (images_to_pdf env (Py.join album_dir c) (chapter_pdf_path album_dir c) fs)
    as [[result fs1] tr1]. cbn [fst snd].
  by destruct (convert_chapters env album_dir done fs1) as [[? ?] ?].
Qed.

Lemma convert_chapters_returned (album_dir : string) (chapters : list string)
    (fs : gmap string file) :
  (convert_chapters env album_dir chapters fs).1.1
  = concat (imap (fun i chapter =>
                    if chapter_ok env album_dir chapter
                         (state_after_chapters env album_dir (take i chapters) fs)
                    then [chapter_pdf_path album_dir chapter] else [])
              chapters).
Proof.
  revert fs. induction chapters as [|c rest IH]; intros fs; [done|].
  rewrite imap_cons. cbn [concat].
  rewrite (imap_ext _ (fun i chapter =>
             if chapter_ok env album_dir chapter
                  (state_after_chapters env album_dir (take i rest)
                     (images_to_pdf env (Py.join album_dir c)
                        (chapter_pdf_path album_dir c) fs).1.2)
             then [chapter_pdf_path album_dir chapter] else [])).
  2: { intros i x _. unfold compose. cbn [take].
       by rewrite state_after_chapters_cons. }
  rewrite <- IH. cbn [take]. unfold state_after_chapters at 1.
  cbn [convert_chapters fst snd]. unfold chapter_ok.
  destruct (images_to_pdf env (Py.join album_dir c) (chapter_pdf_path album_dir c) fs)
    as [[result fs1] tr1]. cbn [fst snd].
  by destruct (convert_chapters env album_dir rest fs1) as [[pdf_paths fs2] tr2].
Qed.

Lemma convert_chapters_sublist (album_dir : string) (chapters : list string)
    (fs : gmap string file) :
  (convert_chapters env album_dir chapters fs).1.1
    `sublist_of` map (chapter_pdf_path album_dir) chapters.
Proof.
  revert fs. induction chapters as [|c rest IH]; intros fs; simpl; [done|].
  destruct (images_to_pdf env (Py.join album_dir c) (chapter_pdf_path album_dir c) fs)
    as [[result fs1] tr1].
  specialize (IH fs1).
  destruct (convert_chapters env album_dir rest fs1) as [[pdf_paths fs2] tr2].
  simpl in *.
  destruct (match result with Some (String _ _) => _ | _ => false end); simpl.
  - by apply sublist_skip.
  - by apply sublist_cons.
Qed.

Lemma sort_chapters_spec (dirs : list string) :
  sort_chapters dirs ≡ₚ dirs /\
  (Forall (fun c => is_Some (Py.int c)) dirs ->
     StronglySorted (key_le Py.int) (sort_chapters dirs)) /\
  (Exists (fun c => Py.int c = None) dirs ->
     sort_chapters dirs = Py.list_sort dirs /\
     StronglySorted String.le (sort_chapters dirs)).
Proof.
  unfold sort_chapters.
  destruct (Py.list_sort_key Py.int dirs) as [sorted|] eqn:Hs.
  - split; [by eapply list_sort_key_perm|]. split.
    + intros _. by eapply list_sort_key_sorted.
    + intros Hex. apply list_sort_key_None in Hex. congruence.
  - split; [apply list_sort_perm|]. split.
    + intros Hall. apply (list_sort_key_Some _ _) in Hall as [? ?]. congruence.
    + intros _. split; [done|apply list_sort_sorted].
Qed.
End Album.

(** C9.  The album driver takes the names of the sub-directories the
    album directory lists, orders them by the integers they spell when
    all of them parse and lexicographically otherwise (so 1, 2, 10), and
    announces and converts every one of them in that order, chapter [c]
    into [album/c.pdf].  The list it returns is made, chapter by chapter
    and whatever happened to the chapters before, of the destination of
    each chapter whose conversion returned a path and left a non-empty
    file there; it is thus a sub-list of the destinations in chapter
    order. *)
Theorem album_driver_chapters (env : Env) (album_dir : string) (fs : gmap string file)
    (entries : list dir_entry) :
  scandir env album_dir = ScanOk entries ->
  let dirs := map entry_name (List.filter is_dir entries) in
  let chapters := sort_chapters dirs in
  let run := batch_chapter_to_pdfs env album_dir fs in
  (chapters ≡ₚ dirs /\
   (Forall (fun c => is_Some (Py.int c)) dirs ->
      StronglySorted (key_le Py.int) chapters) /\
   (Exists (fun c => Py.int c = None) dirs ->
      chapters = Py.list_sort dirs /\ StronglySorted String.le chapters)) /\
  announced_chapters run.2 = chapters /\
  run.1.1 = concat (imap (fun i chapter =>
                      if chapter_ok env album_dir chapter
                           (state_after_chapters env album_dir (take i chapters) fs)
                      then [Py.join album_dir (chapter +:+ ".pdf")] else [])
                chapters) /\
  run.1.1 `sublist_of` map (fun chapter => Py.join album_dir (chapter +:+ ".pdf")) chapters /\
  sort_chapters ["1"; "10"; "2"]%string = ["1"; "2"; "10"]%string.
Proof.
  intros Hscan dirs chapters run. subst run. unfold batch_chapter_to_pdfs.
  rewrite Hscan. fold dirs. fold chapters.
  pose proof (convert_chapters_announced env album_dir chapters fs) as Hann.
  pose proof (convert_chapters_returned env album_dir chapters fs) as Hret.
  pose proof (convert_chapters_sublist env album_dir chapters fs) as Hsub.
  destruct (convert_chapters env album_dir chapters fs) as [[pdf_paths fs'] tr].
  simpl in *. split; [apply sort_chapters_spec|].
  split; [done|]. split; [done|]. split; [done|]. reflexivity.
Qed.

(* ------------------------------------------------------------------ *)
(** * Paths of the partial PDFs *)
(* ------------------------------------------------------------------ *)

Lemma string_length_app (s t : string) :
  String.length (s +:+ t) = String.length s + String.length t.
Proof.
  induction s as [|c s IH]; [done|].
  change (S (String.length (s +:+ t)) = S (String.length s) + String.length t).
  by rewrite IH.
Qed.

Lemma string_app_inj_r (s1 s2 t : string) : s1 +:+ t = s2 +:+ t -> s1 = s2.
Proof.
  revert s2. induction s1 as [|c s1 IH]; intros [|d s2] H.
  - done.
  - apply (f_equal String.length) in H.
    rewrite !string_length_app in H. simpl in H. lia.
  - apply (f_equal String.length) in H.
    rewrite !string_length_app in H. simpl in H. lia.
  - change (String c (s1 +:+ t) = String d (s2 +:+ t)) in H.
    injection H as -> H. f_equal. by apply IH.
Qed.

Lemma join_inj_relative (a : string) (c d : ascii) (b1 b2 : string) :
  c <> "/"%char -> d <> "/"%char ->
  Py.join a (String c b1) = Py.join a (String d b2) -> String c b1 = String d b2.
Proof.
  intros Hc Hd. unfold Py.join.
  destruct (Ascii.eqb_spec c "/") as [|_]; [done|].
  destruct (Ascii.eqb_spec d "/") as [|_]; [done|].
  assert (forall (x : ascii) (r : string) (P : string),
            x <> "/"%char ->
            match String x r with String "/" _ => String x r | _ => P end = P) as Hm.
  { intros x r P Hx. destruct x as [[] [] [] [] [] [] [] []]; try done. }
  rewrite !Hm by done.
  destruct a as [|a0 a']; [done|].
  destruct (Py.endswith_sep (String a0 a')).
  - apply String.app_inj.
  - intros H. apply String.app_inj in H. by apply String.app_inj in H.
Qed.

Lemma temp_pdf_path_inj (temp_dir : string) (i j : nat) :
  temp_pdf_path temp_dir i = temp_pdf_path temp_dir j -> i = j.
Proof.
  unfold temp_pdf_path. intros H.
  apply (join_inj_relative temp_dir "t" "t") in H; [|done..].
  injection H as H. apply string_app_inj_r in H.
  apply pretty_nat_inj in H. lia.
Qed.

(* ------------------------------------------------------------------ *)
(** * Images that do not open *)
(* ------------------------------------------------------------------ *)

Lemma sort_image_files_perm (image_files : list string) :
  sort_image_files image_files ≡ₚ image_files.
Proof.
  unfold sort_image_files.
  destruct (Py.list_sort_key _ image_files) eqn:Hs;
    [by eapply list_sort_key_perm|apply list_sort_perm].
Qed.

Lemma concat_batches_of (image_files : list string) :
  concat (batches_of BATCH_SIZE image_files) = image_files.
Proof.
  unfold batches_of. rewrite concat_batches_prefix. apply take_ge.
  apply (batch_count_of_bounds BATCH_SIZE (length image_files)). unfold BATCH_SIZE. lia.
Qed.

Lemma batch_files_of_subset (image_files : list string) (i : nat) (f : string) :
  f ∈ batch_files_of BATCH_SIZE image_files i -> f ∈ image_files.
Proof.
  unfold batch_files_of, slice. intros Hf.
  by apply subseteq_take, subseteq_drop in Hf.
Qed.

Lemma filter_ne_length (bad : string) (l : list string) :
  NoDup l -> bad ∈ l ->
  length (List.filter (fun f => negb (String.eqb f bad)) l) = length l - 1.
Proof.
  induction 1 as [|x l Hx Hnd IH]; [by intros ?%elem_of_nil|].
  intros Hin. simpl. destruct (String.eqb_spec x bad) as [->|Hne]; simpl.
  - rewrite Nat.sub_0_r. f_equal.
    clear -Hx. induction l as [|y l IH]; [done|]. simpl.
    destruct (String.eqb_spec y bad) as [->|_]; simpl.
    + exfalso. apply Hx. by left.
    + f_equal. apply IH. intros ?. apply Hx. by right.
  - apply elem_of_cons in Hin as [->|Hin]; [done|].
    rewrite IH by done. destruct l; [by apply elem_of_nil in Hin|simpl; lia].
Qed.

Section Corrupt.
Variable env : Env.
Variables image_dir output_pdf_path temp_dir : string.
Variable image_files : list string.
Variable fs0 : gmap string file.

Hypothesis temp_not_output : forall k, temp_pdf_path temp_dir k <> output_pdf_path.
Hypothesis temp_not_image :
  forall k f, f ∈ image_files -> temp_pdf_path temp_dir k <> Py.join image_dir f.
Hypothesis save_ok : forall path pages, pil_save_ok env path pages = true.

Lemma open_batch_pages (fs : gmap string file) (batch : list string) :
  (forall f, f ∈ batch -> fs !! Py.join image_dir f = fs0 !! Py.join image_dir f) ->
  (open_batch fs image_dir batch).1
  = map (Py.join image_dir) (List.filter (opens fs0 image_dir) batch).
Proof.
  induction batch as [|f rest IH]; intros Hkept; [done|].
  specialize (IH ltac:(intros; apply Hkept; by right)).
  cbn [open_batch List.filter].
  destruct (open_batch fs image_dir rest) as [imgs tr]. cbn [fst] in IH. subst imgs.
  assert (image_open fs (Py.join image_dir f) = image_open fs0 (Py.join image_dir f))
    as -> by (unfold image_open; by rewrite (Hkept f) by by left).
  assert (opens fs0 image_dir f
          = match image_open fs0 (Py.join image_dir f) with
            | Some _ => true | None => false end) as -> by done.
  destruct (image_open fs0 (Py.join image_dir f)) as [img|] eqn:Hopen; [|done].
  unfold image_open in Hopen.
  destruct (fs0 !! Py.join image_dir f) as [[|[]| | |]|]; try done.
  by injection Hopen as <-.
Qed.

Lemma process_batch_pages (i : nat) (temp_pdfs : list string) (fs : gmap string file) :
  images_kept image_dir image_files fs0 fs ->
  (process_batch env temp_dir image_dir image_files i temp_pdfs fs).1
  = if nonempty_pages (batch_pages fs0 image_dir image_files i)
    then (temp_pdfs ++ [temp_pdf_path temp_dir i],
          <[temp_pdf_path temp_dir i := PdfDoc (batch_pages fs0 image_dir image_files i)]> fs)
    else (temp_pdfs, fs).
Proof.
  intros Hkept. unfold process_batch, batch_pages.
  rewrite <- (open_batch_pages fs)
    by (intros f Hf; apply Hkept; by eapply batch_files_of_subset).
  destruct (open_batch fs image_dir _) as [[|img imgs] tr]; [done|].
  cbn [fst nonempty_pages]. by rewrite save_ok.
Qed.

Lemma run_batches_pages (indices : list nat) (temp_pdfs : list string)
    (fs : gmap string file) :
  images_kept image_dir image_files fs0 fs -> NoDup indices ->
  let run := run_batches env temp_dir image_dir image_files indices temp_pdfs fs in
  run.1.1 = temp_pdfs ++ partial_paths fs0 image_dir temp_dir image_files indices /\
  (forall p, (forall i, i ∈ indices -> p <> temp_pdf_path temp_dir i) ->
             run.1.2 !! p = fs !! p) /\
  Forall2 (fun p pages => run.1.2 !! p = Some (PdfDoc pages))
    (partial_paths fs0 image_dir temp_dir image_files indices)
    (partial_docs fs0 image_dir image_files indices).
Proof.
  revert temp_pdfs fs. induction indices as [|i rest IH]; intros temp_pdfs fs Hkept Hnd.
  - simpl. rewrite app_nil_r. repeat split; done.
  - apply NoDup_cons in Hnd as [Hi Hnd]. cbn [run_batches].
    pose proof (process_batch_pages i temp_pdfs fs Hkept) as Hstep.
    destruct (process_batch env temp_dir image_dir image_files i temp_pdfs fs)
      as [[temp_pdfs1 fs1] tr1]. cbn [fst] in Hstep.
    assert (images_kept image_dir image_files fs0 fs1) as Hkept1.
    { intros f Hf. rewrite <- (Hkept f Hf).
      destruct (nonempty_pages _); injection Hstep as _ ->; [|done].
      apply lookup_insert_ne. by apply temp_not_image. }
    specialize (IH temp_pdfs1 fs1 Hkept1 Hnd).
    destruct (run_batches env temp_dir image_dir image_files rest temp_pdfs1 fs1)
      as [[temp_pdfs2 fs2] tr2].
    cbn [fst snd] in IH |- *. destruct IH as (IHp & IHo & IHd).
    unfold partial_paths, partial_docs in *. cbn [List.filter].
    destruct (nonempty_pages (batch_pages fs0 image_dir image_files i)) eqn:Hne;
      injection Hstep as -> ->.
    + split; [|split].
      * rewrite IHp. simpl. by rewrite <- app_assoc.
      * intros p Hp. rewrite IHo by (intros j Hj; apply Hp; by right).
        apply lookup_insert_ne. apply not_eq_sym, Hp. by left.
      * simpl. constructor; [|done].
        rewrite IHo; [apply lookup_insert_eq|].
        intros j Hj Heq. apply temp_pdf_path_inj in Heq. by subst.
    + split; [done|]. split; [|done].
      intros p Hp. apply IHo. intros j Hj. apply Hp. by right.
Qed.

Lemma partial_docs_concat (indices : list nat) :
  concat (partial_docs fs0 image_dir image_files indices)
  = concat (map (batch_pages fs0 image_dir image_files) indices).
Proof.
  unfold partial_docs. induction indices as [|i rest IH]; [done|].
  cbn [List.filter map concat].
  destruct (batch_pages fs0 image_dir image_files i) eqn:Hp; simpl; [done|].
  by rewrite Hp, IH.
Qed.

Lemma all_pages :
  concat (map (batch_pages fs0 image_dir image_files)
            (seq 0 (batch_count_of BATCH_SIZE (length image_files))))
  = map (Py.join image_dir) (List.filter (opens fs0 image_dir) image_files).
Proof.
  rewrite <- (concat_batches_of image_files) at 3. unfold batches_of, batch_pages.
  induction (seq 0 _) as [|i rest IH]; [done|].
  simpl. by rewrite IH, List.filter_app, map_app.
Qed.

Lemma cleanup_temp_other (k : nat) (fs : gmap string file) (p : string) :
  (forall i, p <> temp_pdf_path temp_dir i) ->
  cleanup_temp temp_dir k fs !! p = fs !! p.
Proof.
  intros Hp. unfold cleanup_temp. induction (seq 0 k) as [|i rest IH]; [done|].
  simpl. rewrite lookup_delete_ne by (apply not_eq_sym, Hp). done.
Qed.

Lemma finish_batches_docs (temp_pdfs : list string) (docs : list (list string))
    (fs : gmap string file) :
  Forall2 (fun p pages => fs !! p = Some (PdfDoc pages)) temp_pdfs docs ->
  temp_pdfs <> [] ->
  (forall p, p ∈ temp_pdfs -> p <> output_pdf_path) ->
  writable env output_pdf_path = true ->
  (2 <= length temp_pdfs -> PYPDF2_AVAILABLE env = true) ->
  (finish_batches env image_dir output_pdf_path temp_pdfs fs).1
  = (FallThrough, <[output_pdf_path := PdfDoc (concat docs)]> fs).
Proof.
  intros Hdocs Hne Hout Hw Hlib. unfold finish_batches.
  destruct temp_pdfs as [|p [|q rest]]; [done| |].
  - inversion Hdocs as [|? d ? ds Hp Hrest]; subst. inversion Hrest; subst.
    unfold copy2. rewrite Hp, Hw.
    destruct (String.eqb_spec p output_pdf_path) as [Heq|_].
    + exfalso. apply (Hout p); [by left|done].
    + simpl. by rewrite app_nil_r.
  - pose proof (merge_pdfs_docs env (p :: q :: rest) docs output_pdf_path fs
                  (Hlib ltac:(simpl; lia)) Hw ltac:(done) Hdocs) as Hm.
    destruct (merge_pdfs env (p :: q :: rest) output_pdf_path fs) as [[ok fs'] tr].
    simpl in Hm. by injection Hm as -> ->.
Qed.
End Corrupt.

(** The PIL batch strategy on a directory with at least one image that
    opens: the destination gets the images that open, in list order. *)
Lemma pil_strategy_pages (env : Env) (image_dir output_pdf_path temp_dir : string)
    (image_files : list string) (fs0 : gmap string file) :
  (forall k, temp_pdf_path temp_dir k <> output_pdf_path) ->
  (forall k f, f ∈ image_files -> temp_pdf_path temp_dir k <> Py.join image_dir f) ->
  (forall path pages, pil_save_ok env path pages = true) ->
  mkdtemp env fs0 = Some temp_dir ->
  writable env output_pdf_path = true ->
  (PYPDF2_AVAILABLE env = true \/ length image_files <= BATCH_SIZE) ->
  List.filter (opens fs0 image_dir) image_files <> [] ->
  (pil_strategy env image_dir output_pdf_path image_files fs0).1.1 = Some output_pdf_path /\
  (pil_strategy env image_dir output_pdf_path image_files fs0).1.2 !! output_pdf_path
  = Some (PdfDoc (map (Py.join image_dir)
                    (List.filter (opens fs0 image_dir) image_files))).
Proof.
  intros Hout Himg Hsave Htmp Hw Hlib Hgood. unfold pil_strategy. rewrite Htmp.
  set (k := batch_count_of BATCH_SIZE (length image_files)).
  pose proof (run_batches_pages env image_dir temp_dir image_files fs0 Himg Hsave
                (seq 0 k) [] fs0 ltac:(by intros ? ?) (NoDup_seq 0 k))
    as (Hpaths & _ & Hdocs).
  destruct (run_batches env temp_dir image_dir image_files (seq 0 k) [] fs0)
    as [[temp_pdfs fs1] tr1]. cbn [fst snd] in Hpaths, Hdocs.
  rewrite app_nil_l in Hpaths. subst temp_pdfs.
  assert (concat (partial_docs fs0 image_dir image_files (seq 0 k))
          = map (Py.join image_dir) (List.filter (opens fs0 image_dir) image_files))
    as Hall by (rewrite partial_docs_concat; apply all_pages).
  pose proof (finish_batches_docs env image_dir output_pdf_path _ _ fs1 Hdocs) as Hfin.
  rewrite Hall in Hfin.
  destruct (finish_batches env image_dir output_pdf_path
              (partial_paths fs0 image_dir temp_dir image_files (seq 0 k)) fs1)
    as [[how fs2] tr2]. cbn [fst] in Hfin.
  assert ((how, fs2) = (FallThrough,
            <[output_pdf_path := PdfDoc (map (Py.join image_dir)
                 (List.filter (opens fs0 image_dir) image_files))]> fs1)) as Hres.
  { apply Hfin; [| |done|].
    - intros Hnil. rewrite Hnil in Hdocs. apply Forall2_nil_inv_l in Hdocs.
      rewrite Hdocs in Hall. simpl in Hall. symmetry in Hall.
      apply map_eq_nil in Hall. done.
    - intros p Hp. unfold partial_paths in Hp.
      apply list_elem_of_fmap in Hp as (i & -> & _). apply Hout.
    - intros Hlen. destruct Hlib as [Hlib|Hsmall]; [done|]. exfalso.
      unfold partial_paths in Hlen. rewrite length_map in Hlen.
      pose proof (List.filter_length_le
                    (fun i => nonempty_pages (batch_pages fs0 image_dir image_files i))
                    (seq 0 k)) as Hle.
      rewrite length_seq in Hle.
      pose proof (batch_count_of_bounds BATCH_SIZE (length image_files)
                    ltac:(unfold BATCH_SIZE; lia)) as (_ & Hlow & Hzero).
      fold k in Hlow, Hzero.
      destruct (decide (length image_files = 0)) as [H0|Hn0]; [specialize (Hzero H0); lia|].
      destruct Hlow as [Hlow _]; [lia|]. nia. }
  injection Hres as -> ->. cbn [fst snd]. split; [done|].
  rewrite cleanup_temp_other by (intros i; apply not_eq_sym, Hout).
  apply lookup_insert_eq.
Qed.

Lemma filter_opens_one_bad (fs0 : gmap string file) (image_dir bad : string)
    (image_files : list string) :
  opens fs0 image_dir bad = false ->
  (forall f, f ∈ image_files -> f <> bad -> opens fs0 image_dir f = true) ->
  List.filter (opens fs0 image_dir) image_files
  = List.filter (fun f => negb (String.eqb f bad)) image_files.
Proof.
  intros Hbad Hgood. induction image_files as [|f l IH]; [done|].
  simpl. rewrite IH by (intros; apply Hgood; [by right|done]).
  destruct (String.eqb_spec f bad) as [->|Hne]; simpl.
  - by rewrite Hbad.
  - rewrite Hgood; [done|by left|done].
Qed.


(* ------------------------------------------------------------------ *)
(** * The theorems on the sample album *)
(* ------------------------------------------------------------------ *)

Lemma sort_image_files_all_or_nothing_witness :
  StronglySorted (key_le (fun x => Py.int (base_name x)))
    (sort_image_files ["10.jpg"; "2.jpg"; "1.PNG"]%string) /\
  sort_image_files ["10.jpg"; "cover.jpg"; "1.PNG"]%string
  = Py.list_sort ["10.jpg"; "cover.jpg"; "1.PNG"]%string.
Proof.
  split.
  - apply (sort_image_files_all_or_nothing ["10.jpg"; "2.jpg"; "1.PNG"]%string).
    repeat constructor; vm_compute; eauto.
  - apply (sort_image_files_all_or_nothing ["10.jpg"; "cover.jpg"; "1.PNG"]%string).
    apply Exists_cons_tl, Exists_cons_hd. reflexivity.
Defined.


Lemma fast_path_selection_witness :
  images_to_pdf (sample_env true) "album/10" "album/10.pdf" sample_files
  = pil_strategy (sample_env true) "album/10" "album/10.pdf"
      ["1.webp"; "cover.jpg"]%string sample_files.
Proof.
  apply (fast_path_selection (sample_env true) "album/10" "album/10.pdf" sample_files
           [file_entry "1.webp"; file_entry "cover.jpg"]).
  - reflexivity.
  - vm_compute. discriminate.
  - reflexivity.
  - apply Exists_cons_hd. left. reflexivity.
Defined.


Lemma merge_pdfs_validity_witness :
  (merge_pdfs (sample_env false) ["old/a.pdf"; "old/b.pdf"]%string "out.pdf"
     sample_files).1
  = (true, <["out.pdf"%string := PdfDoc ["old/a1.jpg"; "old/a2.jpg"]%string]> sample_files).
Proof.
  pose proof (merge_pdfs_validity (sample_env false) ["old/a.pdf"; "old/b.pdf"]%string
                "out.pdf" sample_files) as (_ & _ & Hmixed & _).
  apply (Hmixed "old/a.pdf" "old/b.pdf" ["old/a1.jpg"; "old/a2.jpg"])%string.
  - reflexivity.
  - reflexivity.
  - vm_compute. reflexivity.
  - vm_compute. reflexivity.
  - left. reflexivity.
Defined.

Lemma no_images_no_output_witness :
  (images_to_pdf (sample_env true) "texts" "texts.pdf" sample_files).1
  = (None, sample_files).
Proof.
  apply (no_images_no_output (sample_env true) "texts" "texts.pdf" sample_files).
  right. exists [file_entry "readme.txt"; subdir_entry "scans.jpg"].
  split; [reflexivity|].
  repeat constructor; vm_compute; intros H; try discriminate H.
  intros Hin. repeat (apply elem_of_cons in Hin as [Hin|Hin]; [discriminate Hin|]).
  by apply elem_of_nil in Hin.
Defined.

Lemma album_driver_chapters_witness :
  announced_chapters (batch_chapter_to_pdfs (sample_env false) "album" sample_files).2
  = ["1"; "2"; "10"]%string.
Proof.
  apply (album_driver_chapters (sample_env false) "album" sample_files
           [subdir_entry "10"; subdir_entry "1"; file_entry "notes.txt"; subdir_entry "2"]).
  reflexivity.
Defined.

Lemma zip_pdfs_all_invalid_witness :
  (zip_pdfs (sample_env false) ["old/b.pdf"; "old/none.pdf"]%string "out.zip"
     sample_files).1
  = (Some "out.zip"%string, <["out.zip"%string := ZipArchive []]> sample_files).
Proof.
  pose proof (zip_pdfs_all_invalid (sample_env false)
                ["old/b.pdf"; "old/none.pdf"]%string "out.zip" sample_files) as [H _].
  - discriminate.
  - apply Forall_cons. split; [right; vm_compute; reflexivity|].
    apply Forall_cons. split; [left; vm_compute; reflexivity|constructor].
  - reflexivity.
  - reflexivity.
  - by rewrite H.
Defined.

Lemma sample_temp_path (k : nat) :
  exists rest, temp_pdf_path "/tmp/tmpq3x" k = String "/" rest.
Proof.
  unfold temp_pdf_path. generalize (pretty (k + 1)). intros s.
  eexists. reflexivity.
Qed.



(** The sample album, converted: chapter [2] fails, the others go on. *)
Example sample_album_returned :
  (batch_chapter_to_pdfs (sample_env false) "album" sample_files).1.1
  = ["album/1.pdf"; "album/10.pdf"]%string.
Proof. vm_compute. reflexivity. Qed.

Example sample_chapter_trace :
  (images_to_pdf (sample_env false) "album/1" "album/1.pdf" sample_files).2
  = [EvBatchStrategy "album/1"; EvBatchPlan 3 1; EvBatchBegin 1;
     EvImageOpened "album/1/1.PNG"; EvImageSkipped "album/1/2.jpg";
     EvImageOpened "album/1/10.jpg";
     EvBatchSaved "/tmp/tmpq3x/temp_batch_1.pdf" ["album/1/1.PNG"; "album/1/10.jpg"];
     EvImageClosed "album/1/1.PNG"; EvImageClosed "album/1/10.jpg";
     EvCopied "/tmp/tmpq3x/temp_batch_1.pdf" "album/1.pdf"; EvDone "album/1"]%string.
Proof. vm_compute. reflexivity. Qed.

Example sample_chapter_open_peak :
  open_count
    (take 7 (images_to_pdf (sample_env false) "album/1" "album/1.pdf" sample_files).2)
  = 2%Z.
Proof. vm_compute. reflexivity. Qed.

(** A failed attempt with img2pdf leaves the destination emptied; the PIL
    batch strategy then overwrites it. *)
Example sample_fallback :
  img2pdf_strategy (sample_env true) "album/1" "album/1.pdf"
    ["1.PNG"; "2.jpg"; "10.jpg"]%string sample_files
  = (false, <["album/1.pdf"%string := Blank]> sample_files) /\
  (images_to_pdf (sample_env true) "album/1" "album/1.pdf" sample_files).1.2
    !! "album/1.pdf"%string
  = Some (PdfDoc ["album/1/1.PNG"; "album/1/10.jpg"]%string).
Proof. split; vm_compute; reflexivity. Qed.

(* ------------------------------------------------------------------ *)
(** * Further properties: the order of the pages *)
(* ------------------------------------------------------------------ *)

Section Stability.
Context {A : Type} (leb : A -> A -> bool) (P : A -> bool).
Hypothesis P_class : forall a b, P a = true -> P b = true -> leb a b = true.

Lemma insert_sorted_filter (x : A) (l : list A) :
  List.filter P (Py.insert_sorted leb x l) = List.filter P (x :: l).
Proof.
  induction l as [|y r IH]; [done|].
  cbn [Py.insert_sorted]. destruct (leb x y) eqn:Hxy; [done|].
  cbn [List.filter] in IH |- *. rewrite IH.
  destruct (P x) eqn:Hx, (P y) eqn:Hy; try done.
  rewrite P_class in Hxy by done. done.
Qed.

Lemma stable_sort_filter (l : list A) :
  List.filter P (Py.stable_sort leb l) = List.filter P l.
Proof.
  induction l as [|x l IH]; [done|].
  cbn [Py.stable_sort foldr]. rewrite insert_sorted_filter.
  cbn [List.filter]. unfold Py.stable_sort in IH. by rewrite IH.
Qed.
End Stability.

Lemma filter_zip_keys {A : Type} (key : A -> option Z) (k : Z)
    (l : list A) (keys : list Z) :
  Forall2 (fun x a => key x = Some a) l keys ->
  map snd (List.filter (fun p : Z * A => Z.eqb p.1 k) (zip keys l))
  = List.filter (has_key key k) l.
Proof.
  induction 1 as [|x a l keys Hx Hrest IH]; [done|].
  cbn [zip zip_with List.filter]. unfold has_key at 1. rewrite Hx.
  cbn [fst]. destruct (Z.eqb a k); simpl; by rewrite IH.
Qed.

Lemma list_sort_key_stable {A : Type} (key : A -> option Z) (l sorted : list A) (k : Z) :
  Py.list_sort_key key l = Some sorted ->
  List.filter (has_key key k) sorted = List.filter (has_key key k) l.
Proof.
  unfold Py.list_sort_key. destruct (mapM key l) as [keys|] eqn:Hkeys; [|done].
  intros [= <-]. apply mapM_Some_1 in Hkeys.
  rewrite <- (filter_zip_keys key k l keys Hkeys).
  rewrite <- (stable_sort_filter (fun a b : Z * A => (a.1 <=? b.1)%Z)
                (fun p : Z * A => Z.eqb p.1 k)).
  2: { intros a b Ha%Z.eqb_eq Hb%Z.eqb_eq. apply Z.leb_le. lia. }
  set (pairs := Py.stable_sort _ (zip keys l)).
  assert (Forall (fun p : Z * A => key p.2 = Some p.1) pairs) as Hpairs.
  { subst pairs. rewrite stable_sort_perm.
    clear -Hkeys. induction Hkeys; simpl; constructor; done. }
  clear -Hpairs. induction Hpairs as [|[a x] r Hax Hr IH]; [done|].
  cbn [map List.filter snd fst] in *. unfold has_key at 1. rewrite Hax.
  destruct (Z.eqb a k); simpl; by rewrite IH.
Qed.

(** X1.  The numeric sort of the file names is stable: when every base
    name parses, the files whose base names spell the same integer (such
    as [1.jpg], [01.jpg] and [1.png]) keep the order in which the
    directory listed them. *)
Theorem sort_image_files_stable (image_files : list string) (k : Z) :
  Forall (fun x => is_Some (image_key x)) image_files ->
  List.filter (has_key image_key k) (sort_image_files image_files)
  = List.filter (has_key image_key k) image_files.
Proof.
  intros Hall. unfold sort_image_files.
  change (fun x => Py.int (Py.splitext x).1) with image_key.
  destruct (list_sort_key_Some image_key _ Hall) as [sorted Hs]. rewrite Hs.
  by eapply list_sort_key_stable.
Qed.

Lemma sort_image_files_stable_witness :
  List.filter (has_key image_key 1) (sort_image_files ["2.jpg"; "1.png"; "01.jpg"; "1.jpg"]%string)
  = ["1.png"; "01.jpg"; "1.jpg"]%string.
Proof.
  rewrite (sort_image_files_stable ["2.jpg"; "1.png"; "01.jpg"; "1.jpg"]%string 1).
  - reflexivity.
  - repeat constructor; vm_compute; eauto.
Defined.

Lemma list_sort_key_perm_inv {A : Type} (key : A -> option Z) (l1 l2 : list A) :
  l1 ≡ₚ l2 -> is_Some (Py.list_sort_key key l1) -> is_Some (Py.list_sort_key key l2).
Proof.
  intros Hperm [r Hr]. apply list_sort_key_Some.
  destruct (Py.list_sort_key key l2) eqn:H2.
  - apply Forall_forall. intros x Hx.
    destruct (key x) eqn:Hk; [eauto|]. exfalso.
    assert (Py.list_sort_key key l2 = None) as Hn
      by (apply list_sort_key_None, Exists_exists; eauto).
    congruence.
  - apply list_sort_key_None in H2. apply Exists_exists in H2 as (x & Hx & Hk).
    assert (Py.list_sort_key key l1 = None) as Hn.
    { apply list_sort_key_None, Exists_exists. exists x. by rewrite Hperm. }
    congruence.
Qed.

(** X2.  The order of the pages does not depend on the order in which the
    operating system lists the directory, as long as no two names that
    parse spell the same integer: two listings of the same names are
    sorted into the same list. *)
Theorem sort_image_files_listing_order (l1 l2 : list string) :
  l1 ≡ₚ l2 ->
  (forall x y, x ∈ l1 -> y ∈ l1 -> is_Some (image_key x) ->
               image_key x = image_key y -> x = y) ->
  sort_image_files l1 = sort_image_files l2.
Proof.
  intros Hperm Hinj. unfold sort_image_files.
  change (fun x => Py.int (Py.splitext x).1) with image_key.
  destruct (Py.list_sort_key image_key l1) as [r1|] eqn:H1.
  - destruct (list_sort_key_perm_inv image_key l1 l2 Hperm ltac:(eauto)) as [r2 H2].
    rewrite H2.
    pose proof (list_sort_key_perm _ _ _ H1) as Hp1.
    pose proof (list_sort_key_perm _ _ _ H2) as Hp2.
    apply (StronglySorted_unique_strong (key_le image_key)).
    + intros x y Hx Hy (a & b & Ha & Hb & Hab) (b' & a' & Hb' & Ha' & Hba).
      apply Hinj.
      * by rewrite <- Hp1.
      * by rewrite Hperm, <- Hp2.
      * eauto.
      * assert (a = a') by congruence. assert (b = b') by congruence.
        assert (a = b) by lia. congruence.
    + by eapply list_sort_key_sorted.
    + by eapply list_sort_key_sorted.
    + by rewrite Hp1, Hp2.
  - destruct (Py.list_sort_key image_key l2) as [r2|] eqn:H2.
    + destruct (list_sort_key_perm_inv image_key l2 l1 (symmetry Hperm) ltac:(eauto))
        as [r1 Hr1]. congruence.
    + apply (StronglySorted_unique String.le);
        [apply list_sort_sorted..|].
      by rewrite !list_sort_perm.
Qed.

Lemma sort_image_files_listing_order_witness :
  sort_image_files ["10.jpg"; "2.jpg"; "1.PNG"]%string
  = sort_image_files ["2.jpg"; "1.PNG"; "10.jpg"]%string.
Proof.
  apply sort_image_files_listing_order.
  - apply Permutation_cons_append.
  - intros x y Hx Hy _.
    repeat (apply elem_of_cons in Hx as [->|Hx]);
      repeat (apply elem_of_cons in Hy as [->|Hy]);
      try (by apply elem_of_nil in Hx); try (by apply elem_of_nil in Hy);
      vm_compute; intros H; (reflexivity || discriminate H).
Defined.

(* ------------------------------------------------------------------ *)
(** * Further properties: formats and open images *)
(* ------------------------------------------------------------------ *)

Lemma get_image_formats_fold (image_files : list string) (acc : gset string * bool)
    (ext : string) :
  ext ∈ (fold_left
           (fun '(formats, unsupported_by_img2pdf) filename =>
              let ext := ext_lower filename in
              ({[ ext ]} ∪ formats,
               if negb (str_in ext img2pdf_extensions) then true
               else unsupported_by_img2pdf))
           image_files acc).1 <->
  ext ∈ acc.1 \/ exists f, f ∈ image_files /\ ext_lower f = ext.
Proof.
  revert acc. induction image_files as [|f l IH]; intros [formats flag].
  - simpl. split; [auto|]. intros [H|(f & Hf & _)]; [done|by apply elem_of_nil in Hf].
  - cbn [fold_left]. rewrite IH. cbn [fst]. rewrite elem_of_union, elem_of_singleton.
    split.
    + intros [[->|H]|(g & Hg & Hext)]; [right; exists f; split; [by left|done]
                                        |by left
                                        |right; exists g; split; [by right|done]].
    + intros [H|(g & Hg & Hext)]; [left; by right|].
      apply elem_of_cons in Hg as [->|Hg]; [left; left; done|].
      right. exists g. done.
Qed.

(** X3.  The format classifier returns the set of the lower-cased
    extensions of the file names it is given, whatever the directory, and
    its flag is off exactly when that set lies within .jpg, .jpeg, .png;
    for no file at all it returns the empty set and the flag off. *)
Theorem get_image_formats_spec (image_dir : string) (image_files : list string) :
  (forall ext, ext ∈ (get_image_formats image_dir image_files).1 <->
               exists f, f ∈ image_files /\ ext_lower f = ext) /\
  ((get_image_formats image_dir image_files).2 = false <->
   forall ext, ext ∈ (get_image_formats image_dir image_files).1 ->
               ext ∈ img2pdf_extensions) /\
  get_image_formats image_dir [] = (∅, false).
Proof.
  assert (forall ext, ext ∈ (get_image_formats image_dir image_files).1 <->
                      exists f, f ∈ image_files /\ ext_lower f = ext) as Hset.
  { intros ext. unfold get_image_formats. rewrite get_image_formats_fold. simpl.
    split; [intros [H|H]; [by apply not_elem_of_empty in H|done]|auto]. }
  split; [done|]. split; [|done].
  rewrite get_image_formats_flag, Forall_forall. split.
  - intros Hall ext (f & Hf & <-)%Hset. by apply Hall.
  - intros Hall f Hf. apply Hall, Hset. eauto.
Qed.

Lemma opened_images_app (t1 t2 : list event) :
  opened_images (t1 ++ t2) = opened_images t1 ++ opened_images t2.
Proof. apply omap_app. Qed.

Lemma closed_images_app (t1 t2 : list event) :
  closed_images (t1 ++ t2) = closed_images t1 ++ closed_images t2.
Proof. apply omap_app. Qed.

Lemma open_batch_opened (fs : gmap string file) (image_dir : string)
    (batch_files_pil : list string) :
  opened_images (open_batch fs image_dir batch_files_pil).2
  = (open_batch fs image_dir batch_files_pil).1 /\
  closed_images (open_batch fs image_dir batch_files_pil).2 = [].
Proof.
  induction batch_files_pil as [|f rest IH]; [done|]. cbn [open_batch].
  destruct (open_batch fs image_dir rest) as [imgs tr]. destruct IH as [IHo IHc].
  cbn [fst snd] in *.
  destruct (image_open fs (Py.join image_dir f)); cbn [fst snd].
  - split.
    + change (opened_images ([EvImageOpened s] ++ tr) = s :: imgs).
      rewrite opened_images_app. by rewrite IHo.
    + change (closed_images ([EvImageOpened s] ++ tr) = []).
      rewrite closed_images_app. by rewrite IHc.
  - split.
    + change (opened_images ([EvImageSkipped (Py.join image_dir f)] ++ tr) = imgs).
      rewrite opened_images_app. by rewrite IHo.
    + change (closed_images ([EvImageSkipped (Py.join image_dir f)] ++ tr) = []).
      rewrite closed_images_app. by rewrite IHc.
Qed.

Lemma closes_opened (imgs : list string) :
  opened_images (map EvImageClosed imgs) = [] /\
  closed_images (map EvImageClosed imgs) = imgs.
Proof.
  induction imgs as [|i imgs [IHo IHc]]; [done|]. split.
  - change (opened_images ([EvImageClosed i] ++ map EvImageClosed imgs) = []).
    by rewrite opened_images_app, IHo.
  - change (closed_images ([EvImageClosed i] ++ map EvImageClosed imgs) = i :: imgs).
    by rewrite closed_images_app, IHc.
Qed.

Lemma neutral_opened (tr : list event) :
  Forall is_neutral tr -> opened_images tr = [] /\ closed_images tr = [].
Proof.
  induction 1 as [|e r He Hr [IHo IHc]]; [done|].
  change (opened_images ([e] ++ r) = [] /\ closed_images ([e] ++ r) = []).
  rewrite opened_images_app, closed_images_app, IHo, IHc. by destruct e.
Qed.

Lemma process_batch_balanced (env : Env) (temp_dir image_dir : string)
    (image_files : list string) (batch_index : nat) (temp_pdfs : list string)
    (fs : gmap string file) :
  opened_images
    (process_batch env temp_dir image_dir image_files batch_index temp_pdfs fs).2
  = closed_images
      (process_batch env temp_dir image_dir image_files batch_index temp_pdfs fs).2.
Proof.
  unfold process_batch.
  pose proof (open_batch_opened fs image_dir
                (batch_files_of BATCH_SIZE image_files batch_index)) as [Ho Hc].
  destruct (open_batch fs image_dir _) as [imgs tr_open]. cbn [fst snd] in Ho, Hc.
  pose proof (closes_opened imgs) as [Hco Hcc].
  destruct imgs as [|i imgs].
  - cbn [snd]. change (EvBatchBegin (batch_index + 1) :: tr_open ++ [EvBatchEmpty (batch_index + 1)])
      with ([EvBatchBegin (batch_index + 1)] ++ tr_open ++ [EvBatchEmpty (batch_index + 1)]).
    rewrite !opened_images_app, !closed_images_app, Ho, Hc. done.
  - destruct (pil_save_ok env _ _); cbn [snd];
      match goal with
      | |- context [?b :: tr_open ++ ?e :: ?cl] =>
          change (b :: tr_open ++ e :: cl) with ([b] ++ tr_open ++ [e] ++ cl)
      end;
      rewrite !opened_images_app, !closed_images_app, Ho, Hc, Hco, Hcc;
      cbn; by rewrite ?app_nil_r.
Qed.

Lemma run_batches_balanced (env : Env) (temp_dir image_dir : string)
    (image_files : list string) (indices : list nat) (temp_pdfs : list string)
    (fs : gmap string file) :
  opened_images (run_batches env temp_dir image_dir image_files indices temp_pdfs fs).2
  = closed_images (run_batches env temp_dir image_dir image_files indices temp_pdfs fs).2.
Proof.
  revert temp_pdfs fs. induction indices as [|i rest IH]; intros temp_pdfs fs; [done|].
  cbn [run_batches].
  pose proof (process_batch_balanced env temp_dir image_dir image_files i temp_pdfs fs) as H1.
  destruct (process_batch env temp_dir image_dir image_files i temp_pdfs fs)
    as [[temp_pdfs1 fs1] tr1].
  specialize (IH temp_pdfs1 fs1).
  destruct (run_batches env temp_dir image_dir image_files rest temp_pdfs1 fs1)
    as [[temp_pdfs2 fs2] tr2].
  cbn [snd] in *. by rewrite opened_images_app, closed_images_app, H1, IH.
Qed.

Lemma pil_strategy_balanced (env : Env) (image_dir output_pdf_path : string)
    (image_files : list string) (fs : gmap string file) :
  opened_images (pil_strategy env image_dir output_pdf_path image_files fs).2
  = closed_images (pil_strategy env image_dir output_pdf_path image_files fs).2.
Proof.
  unfold pil_strategy. destruct (mkdtemp env fs) as [temp_dir|]; [|done].
  pose proof (run_batches_balanced env temp_dir image_dir image_files
                (seq 0 (batch_count_of BATCH_SIZE (length image_files))) [] fs) as Hrun.
  destruct (run_batches env temp_dir image_dir image_files _ [] fs)
    as [[temp_pdfs fs1] tr1].
  pose proof (finish_batches_neutral env image_dir output_pdf_path temp_pdfs fs1) as Hfin.
  destruct (finish_batches env image_dir output_pdf_path temp_pdfs fs1)
    as [[how fs2] tr2].
  cbn [snd] in *. apply neutral_opened in Hfin as [Hfo Hfc].
  destruct how; cbn [snd]; cbv zeta;
    rewrite !opened_images_app, !closed_images_app, Hrun, Hfo, Hfc; done.
Qed.


(* ------------------------------------------------------------------ *)
(** * Further properties: what a conversion writes *)
(* ------------------------------------------------------------------ *)

Section Writes.
Variable env : Env.

Lemma process_batch_writes (temp_dir image_dir : string) (image_files : list string)
    (i : nat) (temp_pdfs : list string) (fs : gmap string file) :
  (process_batch env temp_dir image_dir image_files i temp_pdfs fs).1 = (temp_pdfs, fs) \/
  exists pages,
    (process_batch env temp_dir image_dir image_files i temp_pdfs fs).1
    = (temp_pdfs ++ [temp_pdf_path temp_dir i],
       <[temp_pdf_path temp_dir i := PdfDoc pages]> fs).
Proof.
  unfold process_batch. destruct (open_batch fs image_dir _) as [[|img imgs] tr];
    [by left|].
  destruct (pil_save_ok env _ _); [right; eauto|by left].
Qed.

Lemma run_batches_writes (temp_dir image_dir : string) (image_files : list string)
    (indices : list nat) (temp_pdfs : list string) (fs : gmap string file) :
  NoDup indices ->
  let run := run_batches env temp_dir image_dir image_files indices temp_pdfs fs in
  (forall p, (forall i, i ∈ indices -> p <> temp_pdf_path temp_dir i) ->
             run.1.2 !! p = fs !! p) /\
  exists new,
    run.1.1 = temp_pdfs ++ new /\
    Forall (fun p => (exists i, i ∈ indices /\ p = temp_pdf_path temp_dir i) /\
                     exists pages, run.1.2 !! p = Some (PdfDoc pages)) new.
Proof.
  revert temp_pdfs fs. induction indices as [|i rest IH]; intros temp_pdfs fs Hnd.
  - simpl. split; [done|]. exists []. by rewrite app_nil_r.
  - apply NoDup_cons in Hnd as [Hi Hnd]. cbn [run_batches].
    pose proof (process_batch_writes temp_dir image_dir image_files i temp_pdfs fs) as Hstep.
    destruct (process_batch env temp_dir image_dir image_files i temp_pdfs fs)
      as [[temp_pdfs1 fs1] tr1]. cbn [fst] in Hstep.
    specialize (IH temp_pdfs1 fs1 Hnd).
    destruct (run_batches env temp_dir image_dir image_files rest temp_pdfs1 fs1)
      as [[temp_pdfs2 fs2] tr2].
    cbn [fst snd] in IH |- *. destruct IH as (IHo & new & IHn & IHf).
    assert (Forall (fun p => (exists j, j ∈ i :: rest /\ p = temp_pdf_path temp_dir j) /\
                             exists pages, fs2 !! p = Some (PdfDoc pages)) new) as Hnew.
    { eapply Forall_impl; [exact IHf|]. intros p [(j & Hj & ->) Hp].
      split; [|done]. exists j. split; [by right|done]. }
    destruct Hstep as [[= -> ->]|(pages & [= -> ->])].
    + split.
      * intros p Hp. apply IHo. intros j Hj. apply Hp. by right.
      * exists new. done.
    + split.
      * intros p Hp. rewrite IHo by (intros j Hj; apply Hp; by right).
        apply lookup_insert_ne, not_eq_sym, Hp. by left.
      * exists (temp_pdf_path temp_dir i :: new). split.
        { by rewrite IHn, <- app_assoc. }
        constructor; [|done]. split; [exists i; split; [by left|done]|].
        exists pages. rewrite IHo; [apply lookup_insert_eq|].
        intros j Hj Heq. apply temp_pdf_path_inj in Heq. by subst.
Qed.

Lemma merge_pdfs_writes (pdf_paths : list string) (output_path : string)
    (fs : gmap string file) :
  ((merge_pdfs env pdf_paths output_path fs).1.1 = false /\
   (merge_pdfs env pdf_paths output_path fs).1.2 = fs) \/
  exists pages,
    (merge_pdfs env pdf_paths output_path fs).1
    = (true, <[output_path := PdfDoc pages]> fs).
Proof.
  unfold merge_pdfs. destruct (PYPDF2_AVAILABLE env); cbn [negb]; [|by left].
  destruct (merger_append_all fs pdf_paths []) as [[[|i inputs]|] tr];
    [by left| |by left].
  destruct (writable env output_path); [right; eauto|by left].
Qed.

Lemma finish_batches_writes (image_dir output_pdf_path : string)
    (temp_pdfs : list string) (fs : gmap string file) :
  Forall (fun p => exists pages, fs !! p = Some (PdfDoc pages)) temp_pdfs ->
  let fin := finish_batches env image_dir output_pdf_path temp_pdfs fs in
  (fin.1.1 <> FallThrough /\ fin.1.2 = fs) \/
  (fin.1.1 = FallThrough /\
   exists pages, fin.1.2 = <[output_pdf_path := PdfDoc pages]> fs).
Proof.
  intros Hdocs. unfold finish_batches. destruct temp_pdfs as [|p [|q rest]].
  - by left.
  - apply Forall_cons in Hdocs as [(pages & Hp) _]. unfold copy2. rewrite Hp.
    destruct (String.eqb p output_pdf_path); [by left|].
    destruct (writable env output_pdf_path); [right; eauto|by left].
  - destruct (merge_pdfs_writes (p :: q :: rest) output_pdf_path fs)
      as [[Hok Hfs]|(pages & Hm)];
      destruct (merge_pdfs env (p :: q :: rest) output_pdf_path fs) as [[ok fs'] tr];
      cbn [fst snd] in *.
    + subst. by left.
    + injection Hm as -> ->. right. eauto.
Qed.

Lemma cleanup_temp_lookup (temp_dir : string) (k : nat) (fs : gmap string file)
    (p : string) :
  (forall i, p <> temp_pdf_path temp_dir i) ->
  cleanup_temp temp_dir k fs !! p = fs !! p.
Proof.
  intros Hp. unfold cleanup_temp. induction (seq 0 k) as [|i rest IH]; [done|].
  simpl. by rewrite lookup_delete_ne by (apply not_eq_sym, Hp).
Qed.

Lemma pil_strategy_writes (image_dir output_pdf_path : string)
    (image_files : list string) (fs : gmap string file) :
  let run := pil_strategy env image_dir output_pdf_path image_files fs in
  (run.1.1 = None \/ run.1.1 = Some output_pdf_path) /\
  (forall p, p <> output_pdf_path ->
     (forall td k, mkdtemp env fs = Some td -> p <> temp_pdf_path td k) ->
     run.1.2 !! p = fs !! p) /\
  ((forall td k, mkdtemp env fs = Some td -> temp_pdf_path td k <> output_pdf_path) ->
   (run.1.1 = Some output_pdf_path ->
    exists pages, run.1.2 !! output_pdf_path = Some (PdfDoc pages)) /\
   (run.1.1 = None -> run.1.2 !! output_pdf_path = fs !! output_pdf_path)).
Proof.
  unfold pil_strategy. destruct (mkdtemp env fs) as [temp_dir|] eqn:Htmp.
  2: { cbn. repeat split; auto; done. }
  set (k := batch_count_of BATCH_SIZE (length image_files)).
  pose proof (run_batches_writes temp_dir image_dir image_files (seq 0 k) [] fs
                (NoDup_seq 0 k)) as (Hother & new & Hnew & Hdocs).
  destruct (run_batches env temp_dir image_dir image_files (seq 0 k) [] fs)
    as [[temp_pdfs fs1] tr1]. cbn [fst snd] in Hother, Hnew, Hdocs.
  rewrite app_nil_l in Hnew. subst new.
  assert (Forall (fun p => exists pages, fs1 !! p = Some (PdfDoc pages)) temp_pdfs) as Hd
    by (eapply Forall_impl; [exact Hdocs|]; by intros p [_ ?]).
  pose proof (finish_batches_writes image_dir output_pdf_path temp_pdfs fs1 Hd) as Hfin.
  destruct (finish_batches env image_dir output_pdf_path temp_pdfs fs1)
    as [[how fs2] tr2]. cbn [fst snd] in Hfin.
  assert (forall p, (forall i, p <> temp_pdf_path temp_dir i) -> fs1 !! p = fs !! p)
    as Hother' by (intros p Hp; apply Hother; intros i _; apply Hp).
  split; [destruct how; cbn; auto|]. split.
  - intros p Hout Htemp.
    assert (forall i, p <> temp_pdf_path temp_dir i) as Hp by (intros i; by apply Htemp).
    assert (fs2 !! p = fs1 !! p) as H2.
    { destruct Hfin as [[_ ->]|[_ (pages & ->)]]; [done|].
      by apply lookup_insert_ne. }
    destruct how; cbn [fst snd]; by rewrite cleanup_temp_lookup, H2, Hother'.
  - intros Htemp.
    assert (forall i, output_pdf_path <> temp_pdf_path temp_dir i) as Hp
      by (intros i; apply not_eq_sym; by apply Htemp).
    split.
    + intros Hsome. destruct Hfin as [[Hne ->]|[-> (pages & ->)]].
      * destruct how; done.
      * cbn [fst snd]. exists pages. rewrite cleanup_temp_lookup by done.
        apply lookup_insert_eq.
    + intros Hnone. destruct Hfin as [[Hne ->]|[-> _]]; [|done].
      destruct how; cbn [fst snd]; by rewrite cleanup_temp_lookup, Hother'.
Qed.
End Writes.

Lemma img2pdf_strategy_writes (env : Env) (image_dir output_pdf_path : string)
    (image_files : list string) (fs : gmap string file) :
  let fast := img2pdf_strategy env image_dir output_pdf_path image_files fs in
  (forall p, p <> output_pdf_path -> fast.2 !! p = fs !! p) /\
  (fast.1 = true -> exists pages, fast.2 !! output_pdf_path = Some (PdfDoc pages)) /\
  (fast.1 = false ->
   fast.2 = if writable env output_pdf_path then <[output_pdf_path := Blank]> fs else fs).
Proof.
  unfold img2pdf_strategy. destruct (writable env output_pdf_path); [|done].
  destruct (img2pdf_convert env _ _) as [pages|]; cbn [fst snd].
  - split; [intros p Hp; by apply lookup_insert_ne|].
    split; [|done]. intros _. exists pages. apply lookup_insert_eq.
  - split; [intros p Hp; by apply lookup_insert_ne|]. done.
Qed.

Lemma images_to_pdf_frame (env : Env)
    (image_dir output_pdf_path : string) (fs : gmap string file) :
  ((images_to_pdf env image_dir output_pdf_path fs).1.1 = None \/
   (images_to_pdf env image_dir output_pdf_path fs).1.1 = Some output_pdf_path) /\
  (forall p, p <> output_pdf_path ->
     (forall fs0 td k, mkdtemp env fs0 = Some td -> p <> temp_pdf_path td k) ->
     (images_to_pdf env image_dir output_pdf_path fs).1.2 !! p = fs !! p).
Proof.
  unfold images_to_pdf.
  destruct (scandir env image_dir) as [entries| |]; try (split; [by left|done]).
  destruct (sort_image_files (list_image_files entries)) as [|f image_files];
    [split; [by left|done]|].
  destruct (makedirs_ok env output_pdf_path); cbn [negb]; [|split; [by left|done]].
  destruct (use_img2pdf env image_dir (f :: image_files)).
  - pose proof (img2pdf_strategy_writes env image_dir output_pdf_path (f :: image_files) fs)
      as (Hfast & _ & _).
    destruct (img2pdf_strategy env image_dir output_pdf_path (f :: image_files) fs)
      as [[|] fs1]; cbn [fst snd] in Hfast.
    + split; [by right|]. intros p Hp _. by apply Hfast.
    + pose proof (pil_strategy_writes env image_dir output_pdf_path (f :: image_files) fs1)
        as (Hres & Hother & _).
      destruct (pil_strategy env image_dir output_pdf_path (f :: image_files) fs1)
        as [[r fs2] tr]. cbn [fst snd] in *.
      split; [done|]. intros p Hp Htemp.
      rewrite Hother by (done || (intros td k; apply Htemp)). by apply Hfast.
  - pose proof (pil_strategy_writes env image_dir output_pdf_path (f :: image_files) fs)
      as (Hres & Hother & _).
    split; [done|]. intros p Hp Htemp. apply Hother; [done|]. intros td k. apply Htemp.
Qed.


Lemma sample_temp_fresh (img2pdf : bool) (p : string) :
  (forall rest, p <> String "/" rest) ->
  forall (fs0 : gmap string file) (td : string) (k : nat),
    mkdtemp (sample_env img2pdf) fs0 = Some td -> p <> temp_pdf_path td k.
Proof.
  intros Hp fs0 td k [= <-]. destruct (sample_temp_path k) as [rest ->]. apply Hp.
Qed.


Lemma images_to_pdf_some_pdf (env : Env)
    (image_dir output_pdf_path : string) (fs : gmap string file) :
  (forall fs0 td k, mkdtemp env fs0 = Some td ->
                    temp_pdf_path td k <> output_pdf_path) ->
  is_Some (images_to_pdf env image_dir output_pdf_path fs).1.1 ->
  (exists pages,
     (images_to_pdf env image_dir output_pdf_path fs).1.2 !! output_pdf_path
     = Some (PdfDoc pages)) /\
  valid_pdf (images_to_pdf env image_dir output_pdf_path fs).1.2 output_pdf_path = true.
Proof.
  intros Htemp Hsome.
  assert (exists pages,
            (images_to_pdf env image_dir output_pdf_path fs).1.2 !! output_pdf_path
            = Some (PdfDoc pages)) as (pages & Hpages).
  { revert Hsome. unfold images_to_pdf.
    destruct (scandir env image_dir) as [entries| |]; try by intros [? [=]].
    destruct (sort_image_files (list_image_files entries)) as [|f image_files];
      [by intros [? [=]]|].
    destruct (makedirs_ok env output_pdf_path); cbn [negb]; [|by intros [? [=]]].
    destruct (use_img2pdf env image_dir (f :: image_files)).
    - pose proof (img2pdf_strategy_writes env image_dir output_pdf_path
                    (f :: image_files) fs) as (_ & Hfast & _).
      destruct (img2pdf_strategy env image_dir output_pdf_path (f :: image_files) fs)
        as [[|] fs1]; cbn [fst snd] in Hfast; [intros _; by apply Hfast|].
      pose proof (pil_strategy_writes env image_dir output_pdf_path (f :: image_files) fs1)
        as (Hres & _ & Hpdf).
      destruct (pil_strategy env image_dir output_pdf_path (f :: image_files) fs1)
        as [[r fs2] tr]. cbn [fst snd] in *.
      intros [? ->]. destruct Hpdf as [Hpdf _]; [intros td k; apply Htemp|].
      apply Hpdf. destruct Hres as [[=]|Hres]; done.
    - pose proof (pil_strategy_writes env image_dir output_pdf_path (f :: image_files) fs)
        as (Hres & _ & Hpdf).
      intros [? Hr]. destruct Hpdf as [Hpdf _]; [intros td k; apply Htemp|].
      apply Hpdf. destruct Hres as [Hres|Hres]; [congruence|done]. }
  split; [eauto|]. unfold valid_pdf, path_exists, size_positive. by rewrite Hpages.
Qed.



(** X7.  When the img2pdf strategy has been tried on a destination that
    can be written and the conversion nevertheless ends in failure, the
    destination is left as an empty file, whatever it held before: the
    destination is opened for writing before img2pdf runs, and no later
    failure restores it. *)
Theorem failed_conversion_empties_destination (env : Env)
    (image_dir output_pdf_path : string) (fs : gmap string file)
    (entries : list dir_entry) :
  scandir env image_dir = ScanOk entries ->
  sort_image_files (list_image_files entries) <> [] ->
  makedirs_ok env output_pdf_path = true ->
  use_img2pdf env image_dir (sort_image_files (list_image_files entries)) = true ->
  writable env output_pdf_path = true ->
  (forall fs0 td k, mkdtemp env fs0 = Some td ->
                    temp_pdf_path td k <> output_pdf_path) ->
  (images_to_pdf env image_dir output_pdf_path fs).1.1 = None ->
  (images_to_pdf env image_dir output_pdf_path fs).1.2 !! output_pdf_path = Some Blank.
Proof.
  intros Hscan Hne Hmk Huse Hw Htemp. unfold images_to_pdf. rewrite Hscan, Hmk.
  destruct (sort_image_files (list_image_files entries)) as [|f image_files]; [done|].
  cbn [negb]. rewrite Huse.
  pose proof (img2pdf_strategy_writes env image_dir output_pdf_path (f :: image_files) fs)
    as (_ & _ & Hfail).
  destruct (img2pdf_strategy env image_dir output_pdf_path (f :: image_files) fs)
    as [[|] fs1]; cbn [fst snd] in Hfail; [done|].
  rewrite Hw in Hfail. specialize (Hfail eq_refl). subst fs1.
  pose proof (pil_strategy_writes env image_dir output_pdf_path (f :: image_files)
                (<[output_pdf_path := Blank]> fs)) as (_ & _ & Hpdf).
  destruct (pil_strategy env image_dir output_pdf_path (f :: image_files) _)
    as [[r fs2] tr]. cbn [fst snd] in *.
  intros ->. destruct Hpdf as [_ Hnone]; [intros td k; apply Htemp|].
  rewrite Hnone by done. apply lookup_insert_eq.
Qed.

Lemma failed_conversion_empties_destination_witness :
  sample_files !! "old/a.pdf"%string = Some (PdfDoc ["old/a1.jpg"; "old/a2.jpg"]%string) /\
  (images_to_pdf (sample_env true) "album/2" "old/a.pdf" sample_files).1.2
    !! "old/a.pdf"%string = Some Blank.
Proof.
  split; [vm_compute; reflexivity|].
  apply (failed_conversion_empties_destination (sample_env true) "album/2" "old/a.pdf"
           sample_files [file_entry "1.jpg"]).
  - reflexivity.
  - vm_compute. discriminate.
  - reflexivity.
  - vm_compute. reflexivity.
  - reflexivity.
  - intros fs0 td k Htd. apply not_eq_sym. revert fs0 td k Htd.
    apply sample_temp_fresh. discriminate.
  - vm_compute. reflexivity.
Defined.

(* ------------------------------------------------------------------ *)
(** * Further properties: the merger and the packager *)
(* ------------------------------------------------------------------ *)

Lemma merger_append_all_Some (fs : gmap string file) (pdf_paths : list string)
    (inputs inputs' : list (list string)) :
  (merger_append_all fs pdf_paths inputs).1 = Some inputs' ->
  exists docs,
    inputs' = inputs ++ docs /\
    Forall2 (fun p pages => fs !! p = Some (PdfDoc pages))
      (List.filter (valid_pdf fs) pdf_paths) docs.
Proof.
  revert inputs. induction pdf_paths as [|p rest IH]; intros inputs.
  - simpl. intros [= <-]. exists []. by rewrite app_nil_r.
  - cbn [merger_append_all List.filter]. unfold valid_pdf at 1.
    destruct (path_exists fs p && size_positive fs p).
    + destruct (fs !! p) as [[| | pages | |]|] eqn:Hp; try done.
      specialize (IH (inputs ++ [pages])).
      destruct (merger_append_all fs rest (inputs ++ [pages])) as [r tr].
      cbn [fst] in *. intros Hr. destruct (IH Hr) as (docs & -> & Hdocs).
      exists (pages :: docs). split; [by rewrite <- app_assoc|by constructor].
    + specialize (IH inputs). destruct (merger_append_all fs rest inputs) as [r tr].
      cbn [fst] in *. done.
Qed.

Lemma pdf_docs_unique (fs : gmap string file) (paths : list string)
    (docs1 docs2 : list (list string)) :
  Forall2 (fun p pages => fs !! p = Some (PdfDoc pages)) paths docs1 ->
  Forall2 (fun p pages => fs !! p = Some (PdfDoc pages)) paths docs2 ->
  docs1 = docs2.
Proof.
  intros H. revert docs2. induction H as [|p d l ds Hp Hrest IH]; intros docs2 H2.
  - by apply Forall2_nil_inv_l in H2.
  - apply Forall2_cons_inv_l in H2 as (d2 & ds2 & Hp2 & H2 & ->).
    f_equal; [congruence|by apply IH].
Qed.

(** X8.  The merger returns true exactly when PyPDF2 can be imported,
    at least one input passes the validity test, every input that passes
    it is a PDF, and the destination can be written; the file written is
    then the concatenation, in the order of the list, of the pages of the
    inputs that pass the test. *)
Theorem merge_pdfs_result (env : Env) (pdf_paths : list string) (output_path : string)
    (fs : gmap string file) :
  ((merge_pdfs env pdf_paths output_path fs).1.1 = true <->
   PYPDF2_AVAILABLE env = true /\
   writable env output_path = true /\
   List.filter (valid_pdf fs) pdf_paths <> [] /\
   Forall (fun p => exists pages, fs !! p = Some (PdfDoc pages))
     (List.filter (valid_pdf fs) pdf_paths)) /\
  (forall docs,
     (merge_pdfs env pdf_paths output_path fs).1.1 = true ->
     Forall2 (fun p pages => fs !! p = Some (PdfDoc pages))
       (List.filter (valid_pdf fs) pdf_paths) docs ->
     (merge_pdfs env pdf_paths output_path fs).1.2
     = <[output_path := PdfDoc (concat docs)]> fs).
Proof.
  unfold merge_pdfs. destruct (PYPDF2_AVAILABLE env); cbn [negb].
  2: { split; [split; [done|by intros [[=] _]]|done]. }
  pose proof (merger_append_all_Some fs pdf_paths []) as Hsome.
  pose proof (merger_append_all_filter fs pdf_paths []) as Hfilter.
  destruct (merger_append_all fs pdf_paths []) as [[inputs|] tr]; cbn [fst snd] in *.
  - destruct (Hsome inputs eq_refl) as (docs & -> & Hdocs). rewrite app_nil_l.
    assert (Forall (fun p => exists pages, fs !! p = Some (PdfDoc pages))
              (List.filter (valid_pdf fs) pdf_paths)) as Hall.
    { clear -Hdocs. induction Hdocs; constructor; eauto. }
    destruct docs as [|d docs].
    + apply Forall2_nil_inv_r in Hdocs. rewrite Hdocs.
      split; [split; [done|by intros (_ & _ & ? & _)]|done].
    + assert (List.filter (valid_pdf fs) pdf_paths <> []) as Hne
        by (intros Hnil; rewrite Hnil in Hdocs; inversion Hdocs).
      destruct (writable env output_path); cbn [fst snd].
      * split; [done|]. intros docs' _ Hdocs'.
        by rewrite (pdf_docs_unique fs _ _ _ Hdocs Hdocs').
      * split; [split; [done|by intros (_ & [=] & _)]|done].
  - split; [|done]. split; [done|]. intros (_ & _ & Hne & Hall). exfalso.
    assert (exists docs, Forall2 (fun p pages => fs !! p = Some (PdfDoc pages))
                           (List.filter (valid_pdf fs) pdf_paths) docs) as (docs & Hdocs).
    { clear -Hall. induction Hall as [|p l (pages & Hp) Hl (docs & IH)];
        [exists []; constructor|exists (pages :: docs); by constructor]. }
    rewrite (merger_append_all_docs fs _ docs []) in Hfilter by done. done.
Qed.

Lemma merge_pdfs_result_witness :
  (merge_pdfs (sample_env false) ["old/b.pdf"; "old/a.pdf"; "old/none.pdf"; "old/a.pdf"]%string
     "out.pdf" sample_files).1.2 !! "out.pdf"%string
  = Some (PdfDoc ["old/a1.jpg"; "old/a2.jpg"; "old/a1.jpg"; "old/a2.jpg"]%string).
Proof.
  pose proof (merge_pdfs_result (sample_env false)
                ["old/b.pdf"; "old/a.pdf"; "old/none.pdf"; "old/a.pdf"]%string
                "out.pdf" sample_files) as [Hiff Hpages].
  rewrite (Hpages [["old/a1.jpg"; "old/a2.jpg"]; ["old/a1.jpg"; "old/a2.jpg"]]%string).
  - apply lookup_insert_eq.
  - apply Hiff. repeat split; try reflexivity.
    + vm_compute. discriminate.
    + vm_compute. repeat constructor; eexists; reflexivity.
  - vm_compute. repeat constructor.
Defined.

Lemma rfind_range (c : ascii) (s : string) :
  (-1 <= Py.rfind c s < Z.of_nat (String.length s))%Z.
Proof.
  induction s as [|a r IH]; [simpl; lia|].
  cbn [Py.rfind String.length]. destruct (0 <=? Py.rfind c r)%Z eqn:Hpos.
  - apply Z.leb_le in Hpos. lia.
  - destruct (Ascii.eqb a c); lia.
Qed.

Lemma slice_from_cons (i : Z) (a : ascii) (r : string) :
  (0 <= i)%Z -> Py.slice_from (i + 1) (String a r) = Py.slice_from i r.
Proof.
  intros Hi. unfold Py.slice_from.
  replace (Z.to_nat (i + 1)) with (S (Z.to_nat i)) by lia. done.
Qed.

Lemma slice_from_0 (p : string) : Py.slice_from 0 p = p.
Proof.
  unfold Py.slice_from. change (Z.to_nat 0) with 0. rewrite Nat.sub_0_r.
  induction p as [|a r IH]; [done|]. simpl. by rewrite IH.
Qed.

Lemma basename_no_sep (p : string) : Py.rfind "/" (Py.basename p) = (-1)%Z.
Proof.
  unfold Py.basename. induction p as [|a r IH]; [done|].
  pose proof (rfind_range "/" r) as Hr.
  cbn [Py.rfind]. destruct (0 <=? Py.rfind "/" r)%Z eqn:Hpos.
  - apply Z.leb_le in Hpos. rewrite slice_from_cons by lia. exact IH.
  - apply Z.leb_gt in Hpos. assert (Py.rfind "/" r = -1)%Z as Hnone by lia.
    destruct (Ascii.eqb a "/") eqn:Ha.
    + change (0 + 1)%Z with (0 + 1)%Z. rewrite slice_from_cons by lia.
      by rewrite slice_from_0.
    + change (-1 + 1)%Z with 0%Z. rewrite slice_from_0.
      cbn [Py.rfind]. rewrite Hnone, Ha. done.
Qed.

Lemma zip_entries_names (fs : gmap string file) (pdf_paths : list string) :
  (zip_entries fs pdf_paths).1 = map Py.basename (List.filter (valid_pdf fs) pdf_paths).
Proof.
  induction pdf_paths as [|p rest IH]; [done|].
  cbn [zip_entries List.filter]. unfold valid_pdf at 1.
  destruct (zip_entries fs rest) as [names tr]. cbn [fst] in IH. subst names.
  by destruct (path_exists fs p && size_positive fs p).
Qed.

Lemma valid_pdf_insert_ne (fs : gmap string file) (q p : string) (content : file) :
  q <> p -> valid_pdf (<[q := content]> fs) p = valid_pdf fs p.
Proof.
  intros Hne. unfold valid_pdf, path_exists, size_positive.
  by rewrite lookup_insert_ne.
Qed.



(* ------------------------------------------------------------------ *)
(** * Further properties: batches that fail to save *)
(* ------------------------------------------------------------------ *)

Section SavedBatches.
Variable env : Env.
Variables image_dir output_pdf_path temp_dir : string.
Variable image_files : list string.
Variable fs0 : gmap string file.

Hypothesis temp_not_image :
  forall k f, f ∈ image_files -> temp_pdf_path temp_dir k <> Py.join image_dir f.

Lemma process_batch_saved (i : nat) (temp_pdfs : list string) (fs : gmap string file) :
  images_kept image_dir image_files fs0 fs ->
  (process_batch env temp_dir image_dir image_files i temp_pdfs fs).1
  = if batch_saved env fs0 image_dir temp_dir image_files i
    then (temp_pdfs ++ [temp_pdf_path temp_dir i],
          <[temp_pdf_path temp_dir i := PdfDoc (batch_pages fs0 image_dir image_files i)]> fs)
    else (temp_pdfs, fs).
Proof.
  intros Hkept. unfold process_batch, batch_saved, batch_pages.
  rewrite <- (open_batch_pages image_dir fs0 fs)
    by (intros f Hf; apply Hkept; by eapply batch_files_of_subset).
  destruct (open_batch fs image_dir _) as [[|img imgs] tr]; [done|].
  cbn [fst nonempty_pages andb]. by destruct (pil_save_ok env _ _).
Qed.

Lemma run_batches_saved (indices : list nat) (temp_pdfs : list string)
    (fs : gmap string file) :
  images_kept image_dir image_files fs0 fs -> NoDup indices ->
  let run := run_batches env temp_dir image_dir image_files indices temp_pdfs fs in
  let saved := List.filter (batch_saved env fs0 image_dir temp_dir image_files) indices in
  run.1.1 = temp_pdfs ++ map (temp_pdf_path temp_dir) saved /\
  (forall p, (forall i, i ∈ indices -> p <> temp_pdf_path temp_dir i) ->
             run.1.2 !! p = fs !! p) /\
  Forall2 (fun p pages => run.1.2 !! p = Some (PdfDoc pages))
    (map (temp_pdf_path temp_dir) saved)
    (map (batch_pages fs0 image_dir image_files) saved).
Proof.
  revert temp_pdfs fs. induction indices as [|i rest IH]; intros temp_pdfs fs Hkept Hnd.
  - simpl. rewrite app_nil_r. repeat split; done.
  - apply NoDup_cons in Hnd as [Hi Hnd]. cbn [run_batches].
    pose proof (process_batch_saved i temp_pdfs fs Hkept) as Hstep.
    destruct (process_batch env temp_dir image_dir image_files i temp_pdfs fs)
      as [[temp_pdfs1 fs1] tr1]. cbn [fst] in Hstep.
    assert (images_kept image_dir image_files fs0 fs1) as Hkept1.
    { intros f Hf. rewrite <- (Hkept f Hf).
      destruct (batch_saved _ _ _ _ _ _); injection Hstep as _ ->; [|done].
      apply lookup_insert_ne. by apply temp_not_image. }
    specialize (IH temp_pdfs1 fs1 Hkept1 Hnd).
    destruct (run_batches env temp_dir image_dir image_files rest temp_pdfs1 fs1)
      as [[temp_pdfs2 fs2] tr2].
    cbn [fst snd] in IH |- *. destruct IH as (IHp & IHo & IHd).
    cbn [List.filter].
    destruct (batch_saved env fs0 image_dir temp_dir image_files i) eqn:Hsaved;
      injection Hstep as -> ->.
    + split; [|split].
      * rewrite IHp. simpl. by rewrite <- app_assoc.
      * intros p Hp. rewrite IHo by (intros j Hj; apply Hp; by right).
        apply lookup_insert_ne. apply not_eq_sym, Hp. by left.
      * simpl. constructor; [|done].
        rewrite IHo; [apply lookup_insert_eq|].
        intros j Hj Heq. apply temp_pdf_path_inj in Heq. by subst.
    + split; [done|]. split; [|done].
      intros p Hp. apply IHo. intros j Hj. apply Hp. by right.
Qed.
End SavedBatches.



(* ------------------------------------------------------------------ *)
(** * Further properties: the album driver *)
(* ------------------------------------------------------------------ *)

Lemma chapter_pdf_path_nonempty (album_dir chapter : string) :
  exists c r, chapter_pdf_path album_dir chapter = String c r.
Proof.
  unfold chapter_pdf_path.
  assert (exists c r, chapter +:+ ".pdf" = String c r) as (c & r & ->)
    by (destruct chapter; cbn; eauto).
  assert (forall s, s <> EmptyString -> exists c' r', s = String c' r') as Hcons
    by (intros [|c' r'] ?; [done|eauto]).
  apply Hcons. unfold Py.join.
  destruct c as [[] [] [] [] [] [] [] []]; try discriminate;
    (destruct album_dir as [|a0 a']; [discriminate|]);
    destruct (Py.endswith_sep (String a0 a')); cbn; discriminate.
Qed.

Lemma chapter_file_name (chapter : string) :
  (forall r, chapter <> String "/" r) ->
  exists a r, chapter +:+ ".pdf" = String a r /\ a <> "/"%char.
Proof.
  intros Hc. destruct chapter as [|a r].
  - exists "."%char, "pdf". split; [done|discriminate].
  - exists a, (r +:+ ".pdf"). split; [done|]. intros ->. by eapply Hc.
Qed.

Lemma chapter_pdf_path_inj (album_dir c1 c2 : string) :
  (forall r, c1 <> String "/" r) -> (forall r, c2 <> String "/" r) ->
  chapter_pdf_path album_dir c1 = chapter_pdf_path album_dir c2 -> c1 = c2.
Proof.
  intros H1 H2. unfold chapter_pdf_path.
  destruct (chapter_file_name c1 H1) as (a1 & r1 & Hn1 & Ha1).
  destruct (chapter_file_name c2 H2) as (a2 & r2 & Hn2 & Ha2).
  rewrite Hn1, Hn2. intros H. apply join_inj_relative in H; [|done..].
  rewrite <- Hn1, <- Hn2 in H. by eapply string_app_inj_r.
Qed.

Lemma chapter_pdf_paths_NoDup (album_dir : string) (chapters : list string) :
  NoDup chapters ->
  Forall (fun c => forall r, c <> String "/" r) chapters ->
  NoDup (map (chapter_pdf_path album_dir) chapters).
Proof.
  induction 1 as [|c rest Hc Hnd IH]; intros Hall; [constructor|].
  apply Forall_cons in Hall as [Hc1 Hall]. cbn [map]. apply NoDup_cons. split; [|by apply IH].
  intros Hin. apply list_elem_of_fmap in Hin as (c' & Heq & Hc').
  apply chapter_pdf_path_inj in Heq; [by subst|done|].
  by eapply Forall_forall in Hall.
Qed.

Section AlbumWrites.
Variable env : Env.
Variable album_dir : string.

Lemma chapter_ok_iff (chapter : string) (fs : gmap string file) :
  (forall fs0 td k, mkdtemp env fs0 = Some td ->
                    temp_pdf_path td k <> chapter_pdf_path album_dir chapter) ->
  chapter_ok env album_dir chapter fs = true <->
  is_Some (images_to_pdf env (Py.join album_dir chapter)
             (chapter_pdf_path album_dir chapter) fs).1.1.
Proof.
  intros Htemp. unfold chapter_ok.
  pose proof (images_to_pdf_frame env (Py.join album_dir chapter)
                (chapter_pdf_path album_dir chapter) fs) as [Hres _].
  pose proof (images_to_pdf_some_pdf env (Py.join album_dir chapter)
                (chapter_pdf_path album_dir chapter) fs Htemp) as Hpdf.
  destruct (images_to_pdf env (Py.join album_dir chapter)
              (chapter_pdf_path album_dir chapter) fs) as [[result fs1] tr].
  cbn [fst snd] in *. destruct Hres as [-> | ->].
  - split; [done|by intros [? [=]]].
  - destruct (chapter_pdf_path_nonempty album_dir chapter) as (c & r & Hpath).
    rewrite Hpath at 1. split; [eauto|]. intros Hsome.
    destruct (Hpdf Hsome) as [_ Hvalid]. exact Hvalid.
Qed.

Lemma convert_chapters_frame (chapters : list string) (fs : gmap string file)
    (p : string) :
  (forall fs0 td k, mkdtemp env fs0 = Some td -> p <> temp_pdf_path td k) ->
  (forall c, c ∈ chapters -> p <> chapter_pdf_path album_dir c) ->
  (convert_chapters env album_dir chapters fs).1.2 !! p = fs !! p.
Proof.
  intros Htemp. revert fs. induction chapters as [|c rest IH]; intros fs Hdest; [done|].
  cbn [convert_chapters].
  pose proof (images_to_pdf_frame env (Py.join album_dir c)
                (chapter_pdf_path album_dir c) fs) as [_ Hframe].
  destruct (images_to_pdf env (Py.join album_dir c) (chapter_pdf_path album_dir c) fs)
    as [[result fs1] tr1].
  specialize (IH fs1 ltac:(intros c' Hc'; apply Hdest; by right)).
  destruct (convert_chapters env album_dir rest fs1) as [[pdf_paths fs2] tr2].
  cbn [fst snd] in *. rewrite IH. apply Hframe; [|done]. apply Hdest. by left.
Qed.

Lemma convert_chapters_pdfs (chapters : list string) (fs : gmap string file) :
  NoDup (map (chapter_pdf_path album_dir) chapters) ->
  (forall c fs0 td k, c ∈ chapters -> mkdtemp env fs0 = Some td ->
                      temp_pdf_path td k <> chapter_pdf_path album_dir c) ->
  Forall (fun p => exists pages,
            (convert_chapters env album_dir chapters fs).1.2 !! p = Some (PdfDoc pages))
    (convert_chapters env album_dir chapters fs).1.1.
Proof.
  revert fs. induction chapters as [|c rest IH]; intros fs Hnd Htemp; [constructor|].
  cbn [map] in Hnd. apply NoDup_cons in Hnd as [Hc Hnd].
  pose proof (images_to_pdf_some_pdf env (Py.join album_dir c)
                (chapter_pdf_path album_dir c) fs
                ltac:(intros fs0 td k; apply Htemp; by left)) as Hpdf.
  cbn [convert_chapters].
  destruct (images_to_pdf env (Py.join album_dir c) (chapter_pdf_path album_dir c) fs)
    as [[result fs1] tr1].
  pose proof (convert_chapters_frame rest fs1 (chapter_pdf_path album_dir c)) as Hkeep.
  specialize (IH fs1 Hnd ltac:(intros c' ? ? ? Hc'; apply Htemp; by right)).
  destruct (convert_chapters env album_dir rest fs1) as [[pdf_paths fs2] tr2].
  cbn [fst snd] in *.
  destruct (match result with Some (String _ _) => _ | _ => false end) eqn:Hok;
    cbn [app]; [|done].
  constructor; [|done].
  destruct Hpdf as [(pages & Hpages) _]; [destruct result; [eauto|done]|].
  exists pages. rewrite Hkeep; [done| |].
  - intros fs0 td k Htd. apply not_eq_sym. eapply Htemp; [by left|done].
  - intros c' Hc' Heq. apply Hc. rewrite Heq. apply list_elem_of_fmap. eauto.
Qed.

Lemma convert_chapters_kept (chapters : list string) (fs : gmap string file) :
  exists kept, kept `sublist_of` chapters /\
    (convert_chapters env album_dir chapters fs).1.1
    = map (chapter_pdf_path album_dir) kept.
Proof.
  revert fs. induction chapters as [|c rest IH]; intros fs; [by exists []|].
  cbn [convert_chapters].
  destruct (images_to_pdf env (Py.join album_dir c) (chapter_pdf_path album_dir c) fs)
    as [[result fs1] tr1].
  destruct (IH fs1) as (kept & Hsub & Hkept).
  destruct (convert_chapters env album_dir rest fs1) as [[pdf_paths fs2] tr2].
  cbn [fst snd] in *. subst pdf_paths.
  destruct (match result with Some (String _ _) => _ | _ => false end).
  - exists (c :: kept). split; [by apply sublist_skip|done].
  - exists kept. split; [by apply sublist_cons|done].
Qed.

Lemma convert_chapters_converted (chapters : list string) (fs : gmap string file) :
  (forall c fs0 td k, c ∈ chapters -> mkdtemp env fs0 = Some td ->
                      temp_pdf_path td k <> chapter_pdf_path album_dir c) ->
  (convert_chapters env album_dir chapters fs).1.1
  = concat (imap (fun i chapter =>
                    match (images_to_pdf env (Py.join album_dir chapter)
                             (chapter_pdf_path album_dir chapter)
                             (state_after_chapters env album_dir (take i chapters) fs)).1.1
                    with
                    | Some _ => [chapter_pdf_path album_dir chapter]
                    | None => []
                    end)
              chapters).
Proof.
  intros Htemp. rewrite convert_chapters_returned. f_equal.
  apply imap_ext. intros i c Hc. cbn beta.
  pose proof (chapter_ok_iff c (state_after_chapters env album_dir (take i chapters) fs)
                ltac:(intros fs0 td k; apply Htemp; by eapply list_elem_of_lookup_2))
    as Hiff.
  destruct (chapter_ok env album_dir c _) eqn:Hok.
  - destruct (proj1 Hiff eq_refl) as [x ->]. done.
  - destruct (images_to_pdf env _ _ _).1.1 eqn:Hres; [|done].
    assert (false = true) by (apply Hiff; eauto). done.
Qed.
End AlbumWrites.

Lemma sample_chapter_fresh (img2pdf : bool) (c : string)
    (fs0 : gmap string file) (td : string) (k : nat) :
  c ∈ ["10"; "1"; "2"]%string ->
  mkdtemp (sample_env img2pdf) fs0 = Some td ->
  temp_pdf_path td k <> chapter_pdf_path "album" c.
Proof.
  intros Hc Htd. apply not_eq_sym. revert fs0 td k Htd. apply sample_temp_fresh.
  intros rest.
  repeat (apply elem_of_cons in Hc as [->|Hc]; [discriminate|]).
  by apply elem_of_nil in Hc.
Qed.

(** X11.  The album driver keeps a chapter exactly when the conversion of
    that chapter returned a path: the test of the file's existence and
    size that follows the call never drops a converted chapter.  The
    returned list is therefore, chapter by chapter, the destination of
    each chapter whose conversion returned a path, run on the state the
    earlier chapters left. *)
Theorem album_driver_keeps_converted (env : Env) (album_dir : string)
    (fs : gmap string file) (entries : list dir_entry) :
  scandir env album_dir = ScanOk entries ->
  (forall c fs0 td k,
     c ∈ map entry_name (List.filter is_dir entries) ->
     mkdtemp env fs0 = Some td ->
     temp_pdf_path td k <> chapter_pdf_path album_dir c) ->
  (batch_chapter_to_pdfs env album_dir fs).1.1
  = concat (imap (fun i chapter =>
                    match (images_to_pdf env (Py.join album_dir chapter)
                             (chapter_pdf_path album_dir chapter)
                             (state_after_chapters env album_dir
                                (take i (sort_chapters
                                           (map entry_name (List.filter is_dir entries))))
                                fs)).1.1
                    with
                    | Some _ => [chapter_pdf_path album_dir chapter]
                    | None => []
                    end)
              (sort_chapters (map entry_name (List.filter is_dir entries)))).
Proof.
  intros Hscan Htemp. unfold batch_chapter_to_pdfs. rewrite Hscan.
  set (chapters := sort_chapters (map entry_name (List.filter is_dir entries))).
  pose proof (convert_chapters_converted env album_dir chapters fs) as Hconv.
  destruct (convert_chapters env album_dir chapters fs) as [[pdf_paths fs'] tr].
  cbn [fst snd] in *. apply Hconv. intros c fs0 td k Hc. apply Htemp.
  pose proof (sort_chapters_spec (map entry_name (List.filter is_dir entries)))
    as [Hperm _].
  by rewrite <- Hperm.
Qed.

Lemma album_driver_keeps_converted_witness :
  (batch_chapter_to_pdfs (sample_env false) "album" sample_files).1.1
  = ["album/1.pdf"; "album/10.pdf"]%string.
Proof.
  rewrite (album_driver_keeps_converted (sample_env false) "album" sample_files
             [subdir_entry "10"; subdir_entry "1"; file_entry "notes.txt";
              subdir_entry "2"]).
  - vm_compute. reflexivity.
  - reflexivity.
  - intros c fs0 td k Hc. by apply sample_chapter_fresh.
Defined.





(* ------------------------------------------------------------------ *)
(** * Further properties: archiving an album *)
(* ------------------------------------------------------------------ *)

Lemma rfind_cons_found (x : ascii) (s : string) :
  (0 <= Py.rfind "/" s)%Z ->
  (0 <= Py.rfind "/" (String x s))%Z /\ Py.basename (String x s) = Py.basename s.
Proof.
  intros Hs. unfold Py.basename. cbn [Py.rfind].
  destruct (0 <=? Py.rfind "/" s)%Z eqn:Hpos; [|apply Z.leb_gt in Hpos; lia].
  split; [lia|]. rewrite slice_from_cons by lia. done.
Qed.

Lemma rfind_sep_head (b : string) :
  Py.rfind "/" b = (-1)%Z ->
  (0 <= Py.rfind "/" (String "/" b))%Z /\ Py.basename (String "/" b) = b.
Proof.
  intros Hb. unfold Py.basename. cbn [Py.rfind]. rewrite Hb.
  change (0 <=? -1)%Z with false. cbn [Ascii.eqb Bool.eqb].
  split; [lia|]. change (0 + 1)%Z with (0 + 1)%Z. rewrite slice_from_cons by lia.
  apply slice_from_0.
Qed.

Lemma rfind_none_cons (a : ascii) (r : string) :
  Py.rfind "/" (String a r) = (-1)%Z -> a <> "/"%char /\ Py.rfind "/" r = (-1)%Z.
Proof.
  cbn [Py.rfind]. pose proof (rfind_range "/" r) as Hr.
  destruct (0 <=? Py.rfind "/" r)%Z eqn:Hpos.
  - apply Z.leb_le in Hpos. lia.
  - apply Z.leb_gt in Hpos. destruct (Ascii.eqb_spec a "/"); [lia|]. split; [done|lia].
Qed.

Lemma rfind_none_app (s t : string) :
  Py.rfind "/" s = (-1)%Z -> Py.rfind "/" t = (-1)%Z ->
  Py.rfind "/" (s +:+ t) = (-1)%Z.
Proof.
  intros Hs Ht. induction s as [|a r IH]; [done|].
  apply rfind_none_cons in Hs as [Ha Hr].
  change (String a r +:+ t) with (String a (r +:+ t)). cbn [Py.rfind].
  rewrite (IH Hr). change (0 <=? -1)%Z with false.
  by destruct (Ascii.eqb_spec a "/").
Qed.

Lemma basename_app_sep (a b : string) :
  Py.rfind "/" b = (-1)%Z ->
  (0 <= Py.rfind "/" (a +:+ String "/" b))%Z /\ Py.basename (a +:+ String "/" b) = b.
Proof.
  intros Hb. induction a as [|x a IH]; [by apply rfind_sep_head|].
  change (String x a +:+ String "/" b) with (String x (a +:+ String "/" b)).
  destruct IH as [Hpos Hbase].
  destruct (rfind_cons_found x _ Hpos) as [Hpos' Hbase']. split; [done|congruence].
Qed.

Lemma basename_app_endsep (a b : string) :
  Py.endswith_sep a = true -> Py.rfind "/" b = (-1)%Z ->
  (0 <= Py.rfind "/" (a +:+ b))%Z /\ Py.basename (a +:+ b) = b.
Proof.
  intros Ha Hb. induction a as [|x a IH]; [done|].
  destruct a as [|y r].
  - unfold Py.endswith_sep in Ha. cbn in Ha. apply Ascii.eqb_eq in Ha as ->.
    by apply rfind_sep_head.
  - change (String x (String y r) +:+ b) with (String x (String y r +:+ b)).
    destruct IH as [Hpos Hbase]; [exact Ha|].
    destruct (rfind_cons_found x _ Hpos) as [Hpos' Hbase']. split; [done|congruence].
Qed.

Lemma basename_join (a b : string) :
  Py.rfind "/" b = (-1)%Z -> Py.basename (Py.join a b) = b.
Proof.
  intros Hb. unfold Py.join.
  assert (match b with String "/" _ => b | _ =>
            match a with
            | EmptyString => b
            | _ => if Py.endswith_sep a then a +:+ b else a +:+ "/" +:+ b
            end end
          = match a with
            | EmptyString => b
            | _ => if Py.endswith_sep a then a +:+ b else a +:+ "/" +:+ b
            end) as ->.
  { destruct b as [|c r]; [done|]. apply rfind_none_cons in Hb as [Hc _].
    destruct c as [[] [] [] [] [] [] [] []]; done. }
  destruct a as [|a0 a'].
  - unfold Py.basename. rewrite Hb. apply slice_from_0.
  - destruct (Py.endswith_sep (String a0 a')) eqn:Hend.
    + by apply basename_app_endsep.
    + change ("/" +:+ b) with (String "/" b). by apply basename_app_sep.
Qed.

Lemma chapter_pdf_basename (album_dir chapter : string) :
  Py.rfind "/" chapter = (-1)%Z ->
  Py.basename (chapter_pdf_path album_dir chapter) = chapter +:+ ".pdf".
Proof.
  intros Hc. unfold chapter_pdf_path. apply basename_join.
  by apply rfind_none_app.
Qed.

Lemma rfind_none_relative (d : string) :
  Py.rfind "/" d = (-1)%Z -> forall r, d <> String "/" r.
Proof.
  intros Hd r ->. by apply rfind_none_cons in Hd as [? _].
Qed.

Lemma filter_all_true {A : Type} (f : A -> bool) (l : list A) :
  Forall (fun x => f x = true) l -> List.filter f l = l.
Proof.
  induction 1 as [|x l Hx _ IH]; [done|]. cbn [List.filter]. by rewrite Hx, IH.
Qed.

Lemma zip_pdfs_all_valid (env : Env) (pdf_paths : list string) (zip_path : string)
    (fs : gmap string file) :
  pdf_paths <> [] ->
  zip_path ∉ pdf_paths ->
  Forall (fun q => valid_pdf fs q = true) pdf_paths ->
  makedirs_ok env zip_path && writable env zip_path = true ->
  (zip_pdfs env pdf_paths zip_path fs).1
  = (Some zip_path, <[zip_path := ZipArchive (map Py.basename pdf_paths)]> fs).
Proof.
  intros Hne Hnotin Hvalid Hok. unfold zip_pdfs.
  destruct pdf_paths as [|q rest]; [done|]. rewrite Hok.
  pose proof (zip_entries_names (<[zip_path := Blank]> fs) (q :: rest)) as Hnames.
  destruct (zip_entries (<[zip_path := Blank]> fs) (q :: rest)) as [names tr].
  cbn [fst snd] in *. subst names. rewrite filter_all_true; [done|].
  apply Forall_forall. intros x Hx. rewrite valid_pdf_insert_ne.
  - by eapply Forall_forall in Hvalid.
  - by intros ->.
Qed.



Example sample_album_archive :
  (zip_pdfs (sample_env false)
     (batch_chapter_to_pdfs (sample_env false) "album" sample_files).1.1 "out/album.zip"
     (batch_chapter_to_pdfs (sample_env false) "album" sample_files).1.2).1.2
    !! "out/album.zip"%string
  = Some (ZipArchive ["1.pdf"; "10.pdf"]%string).
Proof. vm_compute. reflexivity. Qed.

(* ------------------------------------------------------------------ *)
(** * Further properties: nothing is left behind *)
(* ------------------------------------------------------------------ *)

Section Leftovers.
Variable env : Env.

Lemma cleanup_temp_deleted (temp_dir : string) (k i : nat) (fs : gmap string file) :
  i < k -> cleanup_temp temp_dir k fs !! temp_pdf_path temp_dir i = None.
Proof.
  intros Hi. unfold cleanup_temp.
  assert (i ∈ seq 0 k) as Hin by (apply list_elem_of_In, in_seq; lia).
  induction (seq 0 k) as [|a rest IH]; [by apply elem_of_nil in Hin|].
  cbn [foldr]. apply elem_of_cons in Hin as [<-|Hin].
  - apply lookup_delete_eq.
  - destruct (decide (temp_pdf_path temp_dir a = temp_pdf_path temp_dir i)) as [->|Hne].
    + apply lookup_delete_eq.
    + rewrite lookup_delete_ne by done. by apply IH.
Qed.

Lemma pil_strategy_leftovers (image_dir output_pdf_path : string)
    (image_files : list string) (fs : gmap string file) :
  let run := pil_strategy env image_dir output_pdf_path image_files fs in
  (forall p, p <> output_pdf_path ->
     run.1.2 !! p = fs !! p \/ run.1.2 !! p = None) /\
  (forall td i, mkdtemp env fs = Some td ->
     i < batch_count_of BATCH_SIZE (length image_files) ->
     run.1.2 !! temp_pdf_path td i = None).
Proof.
  unfold pil_strategy. destruct (mkdtemp env fs) as [temp_dir|] eqn:Htmp.
  2: { cbn. split; [by left|done]. }
  set (k := batch_count_of BATCH_SIZE (length image_files)).
  pose proof (run_batches_writes env temp_dir image_dir image_files (seq 0 k) [] fs
                (NoDup_seq 0 k)) as (Hother & new & Hnew & Hdocs).
  destruct (run_batches env temp_dir image_dir image_files (seq 0 k) [] fs)
    as [[temp_pdfs fs1] tr1]. cbn [fst snd] in Hother, Hnew, Hdocs.
  rewrite app_nil_l in Hnew. subst new.
  assert (Forall (fun p => exists pages, fs1 !! p = Some (PdfDoc pages)) temp_pdfs) as Hd
    by (eapply Forall_impl; [exact Hdocs|]; by intros p [_ ?]).
  pose proof (finish_batches_writes env image_dir output_pdf_path temp_pdfs fs1 Hd) as Hfin.
  destruct (finish_batches env image_dir output_pdf_path temp_pdfs fs1)
    as [[how fs2] tr2]. cbn [fst snd] in Hfin.
  assert (forall p, p <> output_pdf_path -> fs2 !! p = fs1 !! p) as H2.
  { intros p Hp. destruct Hfin as [[_ ->]|[_ (pages & ->)]]; [done|].
    by apply lookup_insert_ne. }
  assert (forall p, p <> output_pdf_path ->
            cleanup_temp temp_dir k fs2 !! p = fs !! p \/
            cleanup_temp temp_dir k fs2 !! p = None) as Hleft.
  { intros p Hp.
    destruct (decide (p ∈ map (temp_pdf_path temp_dir) (seq 0 k))) as [Hin|Hno].
    - right. apply list_elem_of_fmap in Hin as (i & -> & Hi).
      apply cleanup_temp_deleted. apply list_elem_of_In, in_seq in Hi. lia.
    - left. unfold cleanup_temp.
      assert (forall i, i ∈ seq 0 k -> p <> temp_pdf_path temp_dir i) as Hne.
      { intros i Hi ->. apply Hno. apply list_elem_of_fmap. eauto. }
      rewrite <- (Hother p Hne), <- (H2 p Hp).
      clear -Hne. induction (seq 0 k) as [|a rest IH]; [done|].
      cbn [foldr]. rewrite lookup_delete_ne.
      + apply IH. intros i Hi. apply Hne. by right.
      + apply not_eq_sym, Hne. by left. }
  split.
  - intros p Hp. destruct how; cbn [fst snd]; by apply Hleft.
  - intros td i [= <-] Hi. destruct how; cbn [fst snd]; by apply cleanup_temp_deleted.
Qed.

Lemma images_to_pdf_leftovers (image_dir output_pdf_path : string)
    (fs : gmap string file) (p : string) :
  p <> output_pdf_path ->
  (images_to_pdf env image_dir output_pdf_path fs).1.2 !! p = fs !! p \/
  (images_to_pdf env image_dir output_pdf_path fs).1.2 !! p = None.
Proof.
  intros Hp. unfold images_to_pdf.
  destruct (scandir env image_dir) as [entries| |]; try by left.
  destruct (sort_image_files (list_image_files entries)) as [|f image_files];
    [by left|].
  destruct (makedirs_ok env output_pdf_path); cbn [negb]; [|by left].
  destruct (use_img2pdf env image_dir (f :: image_files)).
  - pose proof (img2pdf_strategy_writes env image_dir output_pdf_path (f :: image_files) fs)
      as (Hfast & _ & _).
    destruct (img2pdf_strategy env image_dir output_pdf_path (f :: image_files) fs)
      as [[|] fs1]; cbn [fst snd] in Hfast.
    + left. by apply Hfast.
    + pose proof (pil_strategy_leftovers image_dir output_pdf_path (f :: image_files) fs1)
        as [Hleft _].
      destruct (pil_strategy env image_dir output_pdf_path (f :: image_files) fs1)
        as [[r fs2] tr]. cbn [fst snd] in *.
      rewrite <- (Hfast p Hp). by apply Hleft.
  - by apply pil_strategy_leftovers.
Qed.
End Leftovers.


